(** * macaque-workflows: the best-alignment selector, parameter checking and
    hemisphere masks

    A shallow embedding of

    - [SelectCoregistration._run_interface]
      (src/macaque_utils/interfaces/select_coreg.py),
    - [check_params] (src/macaque_workflows/utils.py),
    - [HemisphereMask._run_interface]
      (src/macaque_workflows/interfaces/nmt.py),

    together with the numpy routines these call ([np.nanargmax],
    [np.argmax], [np.savetxt]) and the Python string and path helpers
    ([str.replace], [os.path.basename], [os.path.join]).

    Calls into nilearn and scipy whose results depend on image contents
    ([image.binarize_img], the masking step of [NiftiMasker],
    [scipy.stats.pearsonr]) are the operations of a class, [Imaging]; what
    a proof uses of them is a named hypothesis of its theorem
    ([pearsonr_in_range], [pearsonr_needs_two_samples], [mask_rows_fit]).
    The module [Grid] gives a small instance on which everything runs. *)

From Stdlib Require Import Ascii String QArith Qminmax.
From stdpp Require Import base option list strings gmap fin_maps.

(** ** Python runtime: exceptions and results *)

Module Py.

(** The exception classes that the embedded code and its libraries raise. *)
Inductive exn : Type :=
| ValueError (msg : string)
| KeyError (msg : string)
| FileNotFoundError (path : string)
| ImageFileError (path : string).

(** The outcome of evaluating an expression: a value or a raised exception. *)
Inductive result (A : Type) : Type :=
| Ok (a : A)
| Raise (e : exn).

Arguments Ok {A} a.
Arguments Raise {A} e.

Definition is_ok {A} (r : result A) : bool :=
  match r with Ok _ => true | Raise _ => false end.

#[export] Instance result_ret : MRet result := fun _ a => Ok a.

#[export] Instance result_bind : MBind result := fun _ _ f r =>
  match r with
  | Ok a => f a
  | Raise e => Raise e
  end.

(** A statement sequence over a mutable store [St]: it either completes
    with a value or raises, and in both cases leaves a store behind (the
    effects performed before a raise are kept). *)
Definition M (St A : Type) : Type := St -> result A * St.

#[export] Instance M_ret {St} : MRet (M St) := fun _ a st => (Ok a, st).

#[export] Instance M_bind {St} : MBind (M St) := fun _ _ f m st =>
  match m st with
  | (Ok a, st') => f a st'
  | (Raise e, st') => (Raise e, st')
  end.

(** An expression that only reads the store. *)
Definition reads {St A} (f : St -> result A) : M St A := fun st => (f st, st).

(** An effect that cannot fail. *)
Definition modify {St} (f : St -> St) : M St () := fun st => (Ok (), f st).

(** [for x in l: body(x)]. *)
Fixpoint for_each {St A} (l : list A) (body : A -> M St ()) : M St () :=
  match l with
  | [] => mret ()
  | x :: rest => body x;; for_each rest body
  end.

End Py.

Export Py.

(** ** IEEE doubles, as far as comparisons see them

    A double is NaN, an infinity, or a finite value; finite values are
    rationals.  The two zeros are not distinguished (they compare equal). *)

Module Float.

Inductive float : Type :=
| NaN
| NegInf
| Fin (q : Q)
| PosInf.

Definition isnan (x : float) : bool :=
  match x with NaN => true | _ => false end.

(** [x <= y] of IEEE 754: false as soon as one side is NaN. *)
Definition leb (x y : float) : bool :=
  match x, y with
  | NaN, _ | _, NaN => false
  | NegInf, _ => true
  | _, PosInf => true
  | Fin a, Fin b => Qle_bool a b
  | _, _ => false
  end.

(** [x >= y] and [x == y]. *)
Definition geb (x y : float) : bool := leb y x.
Definition eqb (x y : float) : bool := leb x y && leb y x.

(** [x * y]; the product of finite values is not rounded.  The code
    multiplies by zero only, where IEEE arithmetic is exact. *)
Definition mul (x y : float) : float :=
  let is_zero q := Qeq_bool q 0 in
  let neg q := Qle_bool q 0 in
  match x, y with
  | NaN, _ | _, NaN => NaN
  | Fin a, Fin b => Fin (a * b)
  | Fin a, PosInf | PosInf, Fin a =>
      if is_zero a then NaN else if neg a then NegInf else PosInf
  | Fin a, NegInf | NegInf, Fin a =>
      if is_zero a then NaN else if neg a then PosInf else NegInf
  | PosInf, PosInf | NegInf, NegInf => PosInf
  | PosInf, NegInf | NegInf, PosInf => NegInf
  end.

Definition zero : float := Fin 0.
Definition one : float := Fin 1.

Definition is_finite (x : float) : bool :=
  match x with Fin _ => true | _ => false end.

(** The values a correlation coefficient takes: NaN, or a finite value
    between -1 and 1. *)
Definition is_correlation (r : float) : bool :=
  match r with
  | NaN => true
  | Fin q => Qle_bool (-1) q && Qle_bool q 1
  | _ => false
  end.

End Float.

Export Float.

(** ** numpy: argmax, nanargmax *)

Module Numpy.

(** [np.argmax] on a one-dimensional array of doubles.  The scan is
    numpy's [DOUBLE_argmax]: the running maximum [mp] starts at the first
    element; an element replaces it when [not (x <= mp)], which is true of
    a larger element and of NaN, and a NaN ends the scan. *)
Fixpoint argmax_scan (mp : float) (max_ind i : nat) (ip : list float) : nat :=
  match ip with
  | [] => max_ind
  | x :: rest =>
      if negb (Float.leb x mp) then
        if isnan x then i else argmax_scan x i (S i) rest
      else argmax_scan mp max_ind (S i) rest
  end.

Definition argmax (a : list float) : result nat :=
  match a with
  | [] => Raise (ValueError "attempt to get argmax of an empty sequence")
  | x :: rest => if isnan x then Ok 0%nat else Ok (argmax_scan x 0 1 rest)
  end.

(** [np.lib.nanfunctions._replace_nan]: the array with every NaN replaced
    by [val], and the mask of the positions that held a NaN. *)
Definition replace_nan (a : list float) (val : float)
  : list float * list bool :=
  (map (fun x => if isnan x then val else x) a, map isnan a).

(** [np.nanargmax]: NaNs are replaced by [-inf] and [argmax] is taken; a
    non-empty array that holds nothing but NaN is refused. *)
Definition nanargmax (a : list float) : result nat :=
  let '(a', mask) := replace_nan a NegInf in
  if negb (length mask =? 0)%nat && forallb id mask
  then Raise (ValueError "All-NaN slice encountered")
  else argmax a'.

(** [np.savetxt(out, np.array(a), delimiter=",")] for a one-dimensional
    [a] writes one row per element, in order; the file is modelled by its
    rows. *)
Definition savetxt_rows (a : list float) : list float := a.

(** [m], at index [r], is the first maximum of [a]: no element is larger,
    and every element before it is smaller. *)
Definition first_max (a : list float) (r : nat) (m : float) : Prop :=
  a !! r = Some m /\
  (forall j x, a !! j = Some x -> Float.leb x m = true) /\
  (forall j x, (j < r)%nat -> a !! j = Some x -> Float.leb m x = false).

End Numpy.

Export Numpy.

(** ** Python strings and paths *)

Module PyStr.

(** [s.replace(old, new)] for a non-empty [old]: the occurrences of [old]
    are replaced from left to right, without overlap.  [skip] counts the
    characters of an occurrence that remain to be dropped. *)
Fixpoint replace_from (old new : string) (skip : nat) (s : string) : string :=
  match s with
  | EmptyString => EmptyString
  | String c s' =>
      match skip with
      | S k => replace_from old new k s'
      | O =>
          if String.prefix old s
          then new +:+ replace_from old new (String.length old - 1) s'
          else String c (replace_from old new 0 s')
      end
  end.

Definition replace (s old new : string) : string := replace_from old new 0 s.

(** [os.path.basename(p)]: what follows the last slash. *)
Fixpoint basename_from (acc p : string) : string :=
  match p with
  | EmptyString => acc
  | String c p' =>
      if Ascii.eqb c "/"%char then basename_from EmptyString p'
      else basename_from (acc +:+ String c EmptyString) p'
  end.

Definition basename (p : string) : string := basename_from EmptyString p.

Fixpoint ends_with_slash (p : string) : bool :=
  match p with
  | EmptyString => false
  | String c EmptyString => Ascii.eqb c "/"%char
  | String _ p' => ends_with_slash p'
  end.

(** [os.path.join(a, b)] on POSIX: an absolute [b] wins; otherwise [b] is
    appended to [a], with a slash between them unless [a] is empty or ends
    with one. *)
Definition join (a b : string) : string :=
  if String.prefix "/" b then b
  else if (String.length a =? 0)%nat || ends_with_slash a then a +:+ b
  else a +:+ "/" +:+ b.

End PyStr.

(** ** nipype interfaces: the file system and the [_results] dictionary *)

Module Interface.

(** A file holds a NIfTI image or the rows written by [np.savetxt]. *)
Inductive file (Image : Type) : Type :=
| NiftiFile (img : Image)
| TextFile (rows : list float).

Arguments NiftiFile {Image} img.
Arguments TextFile {Image} rows.

(** The Python values the interfaces store in [self._results]: an
    integer, a string (a path), or a list of integers. *)
Inductive value : Type :=
| VInt (n : nat)
| VStr (s : string)
| VList (l : list nat).

(** The store an interface runs against: the file system, by path, and
    the interface's [_results] dictionary. *)
Record state (Image : Type) : Type := State {
  fs : gmap string (file Image);
  results : gmap string value
}.

Arguments State {Image} fs results.
Arguments fs {Image} s.
Arguments results {Image} s.

Section Ops.
Context {Image : Type}.

(** [nib.load(path)]. *)
Definition nib_load (path : string) : M (state Image) Image :=
  reads (fun st =>
    match fs st !! path with
    | None => Raise (FileNotFoundError path)
    | Some (NiftiFile img) => Ok img
    | Some (TextFile _) => Raise (ImageFileError path)
    end).

(** [self._results[key] = v]. *)
Definition set_result (key : string) (v : value) : M (state Image) () :=
  modify (fun st => State (fs st) (<[key := v]> (results st))).

(** Writing a file: the path then holds [f], whatever it held before.
    Directories and permissions are not modelled: a write succeeds. *)
Definition write_file (path : string) (f : file Image) : M (state Image) () :=
  modify (fun st => State (<[path := f]> (fs st)) (results st)).

(** [np.savetxt(out, np.array(a), delimiter=",")]. *)
Definition savetxt (out : string) (a : list float) : M (state Image) () :=
  write_file out (TextFile (savetxt_rows a)).

(** [img.to_filename(out)]. *)
Definition to_filename (img : Image) (out : string) : M (state Image) () :=
  write_file out (NiftiFile img).

(** An expression that neither reads nor writes the store. *)
Definition pure_call {A} (r : result A) : M (state Image) A := reads (fun _ => r).

End Ops.

End Interface.

Export Interface.

(** ** select_coreg.py *)

Module SelectCoreg.

(** The image library the interface calls: nilearn's [image.binarize_img]
    and the two steps of [NiftiMasker] that look at voxel data, and
    [scipy.stats.pearsonr].  [n_voxels m] is the number of true voxels of
    the mask image [m]. *)
Class Imaging : Type := {
  Image : Type;
  binarize_img : Image -> Image;
  n_voxels : Image -> nat;
  compute_mask : Image -> Image;
  apply_mask : Image -> Image -> result (list (list float));
  pearsonr : list float -> list float -> result float
}.

(** The traits of [_SelectCoregistrationMapInputSpec]. *)
Record Inputs : Type := {
  target : string;
  sources : list string;
  output_list : bool
}.

(** The same inputs with the trait [output_list] set to [b]. *)
Definition with_output_list (b : bool) (inputs : Inputs) : Inputs :=
  {| target := target inputs; sources := sources inputs; output_list := b |}.

Section Run.
Context {lib : Imaging}.

(** A [NiftiMasker] object: the mask given to the constructor, and the
    mask in use once fitted ([mask_img_]).  The object is shared by all
    calls of [_run_interface] and updated by each [fit]. *)
Record NiftiMasker : Type := {
  mask_img : option Image;
  mask_img_ : option Image
}.

(** [NiftiMasker(mask_img)]. *)
Definition NiftiMasker_init (mask : option Image) : NiftiMasker :=
  {| mask_img := mask; mask_img_ := None |}.

(** [masker.fit(imgs)]: the mask given at construction is used when there
    is one; only otherwise is a mask computed from [imgs]. *)
Definition fit (masker : NiftiMasker) (imgs : Image) : NiftiMasker :=
  {| mask_img := mask_img masker;
     mask_img_ := Some (match mask_img masker with
                        | Some m => m
                        | None => compute_mask imgs
                        end) |}.

(** [masker.transform(imgs)]: one row per volume of [imgs], one column per
    voxel of the fitted mask. *)
Definition transform (masker : NiftiMasker) (imgs : Image)
  : result (list (list float)) :=
  match mask_img_ masker with
  | Some m => apply_mask imgs m
  | None => Raise (ValueError "This masker has not been fitted")
  end.

(** nilearn accepts an image object or a path, and loads a path; its
    errors on a path it cannot load are taken to be nibabel's. *)
Definition check_niimg (x : string + Image) : M (state Image) Image :=
  match x with
  | inl path => nib_load path
  | inr img => mret img
  end.

(** [masker.fit_transform(x)]: the refitted masker and the extracted
    array. *)
Definition fit_transform (masker : NiftiMasker) (x : string + Image)
  : M (state Image) (NiftiMasker * list (list float)) :=
  imgs ← check_niimg x;
  let masker := fit masker imgs in
  a ← pure_call (transform masker imgs);
  mret (masker, a).

(** [a.ravel()] of a two-dimensional array. *)
Definition ravel (a : list (list float)) : list float := concat a.

(** Lines 44-47: the loop over [self.inputs.sources], started with the
    scores appended so far. *)
Fixpoint score_sources (masker : NiftiMasker) (target_vox : list float)
    (correlations : list float) (srcs : list string)
  : M (state Image) (NiftiMasker * list float) :=
  match srcs with
  | [] => mret (masker, correlations)
  | src :: rest =>
      '(masker, a) ← fit_transform masker (inl src);
      let src_vox := ravel a in
      r ← pure_call (pearsonr target_vox src_vox);
      score_sources masker target_vox (correlations ++ [r]) rest
  end.

(** Lines 37-47: everything up to the end of the loop; the value is the
    list [correlations]. *)
Definition correlations_of (inputs : Inputs) : M (state Image) (list float) :=
  target ← nib_load (target inputs);
  let target_mask := binarize_img target in
  let masker := NiftiMasker_init (Some target_mask) in
  '(masker, a) ← fit_transform masker (inr target);
  let target_vox := ravel a in
  '(_, correlations) ← score_sources masker target_vox [] (sources inputs);
  mret correlations.

(** Lines 50-51: the index as stored, a list when [output_list] is set. *)
Definition wrap_index (output_list : bool) (idx : nat) : value :=
  if output_list then VList [idx] else VInt idx.

(** Lines 49-58: selection, then the score file. *)
Definition select_and_save (inputs : Inputs) (cwd : string)
    (correlations : list float) : M (state Image) () :=
  idx ← pure_call (nanargmax correlations);
  let idx := wrap_index (output_list inputs) idx in
  set_result "source_index" idx;;
  let out := PyStr.join cwd "corrs.csv" in
  savetxt out correlations;;
  set_result "correlations" (VStr out);;
  mret ().

(** [SelectCoregistration._run_interface], with [runtime.cwd] as [cwd]. *)
Definition run_interface (inputs : Inputs) (cwd : string) : M (state Image) () :=
  target ← nib_load (target inputs);
  let target_mask := binarize_img target in
  let masker := NiftiMasker_init (Some target_mask) in
  '(masker, a) ← fit_transform masker (inr target);
  let target_vox := ravel a in
  '(_, correlations) ← score_sources masker target_vox [] (sources inputs);
  idx ← pure_call (nanargmax correlations);
  let idx := wrap_index (output_list inputs) idx in
  set_result "source_index" idx;;
  let out := PyStr.join cwd "corrs.csv" in
  savetxt out correlations;;
  set_result "correlations" (VStr out);;
  mret ().

(** The score of one candidate, as the loop body computes it when the
    masker was built from [mask]: the candidate is loaded, masked, and
    correlated with [target_vox]. *)
Definition score_candidate (st : state Image) (mask : Image)
    (target_vox : list float) (src : string) : result float :=
  match fs st !! src with
  | None => Raise (FileNotFoundError src)
  | Some (TextFile _) => Raise (ImageFileError src)
  | Some (NiftiFile img) =>
      a ← apply_mask img mask; pearsonr target_vox (ravel a)
  end.

(** The scores of the candidates [srcs] in order, each computed on its
    own; the first failure is the failure of the whole. *)
Fixpoint score_all (st : state Image) (mask : Image)
    (target_vox : list float) (srcs : list string) : result (list float) :=
  match srcs with
  | [] => Ok []
  | src :: rest =>
      r ← score_candidate st mask target_vox src;
      l ← score_all st mask target_vox rest;
      Ok (r :: l)
  end.

(** The score vector as a function of the files read: the target is
    loaded, binarized and masked by its own mask, and the candidates are
    scored one by one. *)
Definition score_vector (inputs : Inputs) (st : state Image)
  : result (list float) :=
  match fs st !! target inputs with
  | None => Raise (FileNotFoundError (target inputs))
  | Some (TextFile _) => Raise (ImageFileError (target inputs))
  | Some (NiftiFile t) =>
      a ← apply_mask t (binarize_img t);
      score_all st (binarize_img t) (ravel a) (sources inputs)
  end.

(** What the proofs assume of the libraries.  [scipy.stats.pearsonr]
    returns NaN or a value between -1 and 1, and raises when given fewer
    than two samples; the masked array has one column per true voxel of
    the mask. *)
Definition pearsonr_in_range : Prop :=
  forall x y r, pearsonr x y = Ok r -> is_correlation r = true.

Definition pearsonr_needs_two_samples : Prop :=
  forall x y, (length x < 2)%nat -> is_ok (pearsonr x y) = false.

Definition mask_rows_fit : Prop :=
  forall img m rows,
    apply_mask img m = Ok rows ->
    Forall (fun row => length row = n_voxels m) rows.

End Run.

End SelectCoreg.

(** ** utils.py *)

Module Utils.

(** What [check_params] needs from its environment: [open(params)]
    followed by [json.load], for a parameter file that holds a JSON
    object, and the text Python prints for a set in an f-string. *)
Class JsonFiles : Type := {
  JValue : Type;
  json_load : string -> result (gmap string JValue);
  repr_set : gset string -> string
}.

Section CheckParams.
Context {env : JsonFiles}.

(** The argument [params: str | Path | dict]. *)
Inductive params_arg : Type :=
| ParamsPath (path : string)
| ParamsDict (d : gmap string JValue).

(** [check_params(params, required)]; [set(params)] is the key set. *)
Definition check_params (params : params_arg) (required : gset string)
  : result (gmap string JValue) :=
  params ← match params with
            | ParamsDict d => Ok d
            | ParamsPath path => json_load path
            end;
  if negb (bool_decide (required ⊆ dom params))
  then Raise (KeyError ("Parameters must have keys: " +:+ repr_set required))
  else Ok params.

End CheckParams.

End Utils.

(** ** interfaces/nmt.py: HemisphereMask *)

Module Nmt.

(** [ndarray.astype(np.float32)] on one element. *)
Class Float32 : Type := astype_float32 : float -> float.

(** A NIfTI image: its three-dimensional data array, indexed
    [x][y][z], and its affine. *)
Record Nifti1Image : Type := {
  dataobj : list (list (list float));
  affine : list (list float)
}.

Definition get_fdata (img : Nifti1Image) : list (list (list float)) :=
  dataobj img.

(** [a *= 0] on a two-dimensional slab. *)
Definition imul_zero (slab : list (list float)) : list (list float) :=
  map (map (fun x => Float.mul x (Fin 0))) slab.

(** [a[:n, :, :] *= 0] and [a[n:, :, :] *= 0] on a copy of [a]. *)
Definition zero_front (n : nat) (a : list (list (list float)))
  : list (list (list float)) :=
  map imul_zero (take n a) ++ drop n a.

Definition zero_back (n : nat) (a : list (list (list float)))
  : list (list (list float)) :=
  take n a ++ map imul_zero (drop n a).

Section Run.
Context {cast : Float32}.

Definition astype (a : list (list (list float))) : list (list (list float)) :=
  map (map (map astype_float32)) a.

(** The body of the loop of lines 82-87, for one mask and its name. *)
Definition save_mask (mask_img : Nifti1Image) (cwd basename : string)
    (m_name : list (list (list float)) * string)
  : M (state Nifti1Image) () :=
  let '(m, name) := m_name in
  let img := {| dataobj := astype m; affine := affine mask_img |} in
  let out := PyStr.join cwd
               (PyStr.replace basename ".nii.gz" ("_" +:+ name +:+ ".nii.gz")) in
  set_result (name +:+ "_mask") (VStr out);;
  to_filename img out.

(** [HemisphereMask._run_interface], with [runtime.cwd] as [cwd]. *)
Definition run_interface (brain_mask cwd : string) : M (state Nifti1Image) () :=
  mask_img ← nib_load brain_mask;
  let mask := get_fdata mask_img in
  let midpoint := 64%nat in
  let right_mask := zero_front midpoint mask in
  let left_mask := zero_back midpoint mask in
  let basename := PyStr.basename brain_mask in
  for_each (zip [right_mask; left_mask] ["right"; "left"])
           (save_mask mask_img cwd basename).

End Run.

End Nmt.

(** ** A small instance of the environment, to run the interfaces on

    Images are voxel lists in a fixed order; masking keeps the voxels
    where the mask is not zero; Pearson's r is computed over the rationals
    with a square root to six decimals. *)

Module Grid.

Definition nonzero (x : float) : bool := negb (Float.eqb x zero).

Definition binarize (v : list float) : list float :=
  map (fun x => if nonzero x then one else zero) v.

Definition count_true (m : list float) : nat := length (List.filter nonzero m).

Definition select (v m : list float) : list float :=
  map fst (List.filter (fun p => nonzero (snd p)) (zip v m)).

Definition mask_voxels (v m : list float) : result (list (list float)) :=
  if (length v =? length m)%nat then Ok [select v m]
  else Raise (ValueError "Mask and image have different shapes").

Definition finite_value (x : float) : option Q :=
  match x with Fin q => Some q | _ => None end.

Definition qsum (x : list Q) : Q := Qred (foldr Qplus 0%Q x).

Definition center (x : list Q) : list Q :=
  let mean := (qsum x / inject_Z (Z.of_nat (length x)))%Q in
  map (fun v => Qred (v - mean)) x.

Definition dot (x y : list Q) : Q := qsum (zip_with Qmult x y).

(** The square root of a non-negative rational, rounded down to six
    decimals. *)
Definition sqrt6 (q : Q) : Q :=
  let q := Qred q in
  (Z.sqrt (Qnum q * Zpos (Qden q) * 10 ^ 12) # (Qden q * 10 ^ 6)).

Definition constant (x : list Q) : bool :=
  match x with
  | [] => true
  | x0 :: rest => forallb (Qeq_bool x0) rest
  end.

Definition clip (q : Q) : Q := Qred (Qmax (-1) (Qmin 1 q)).

Definition pearson (x y : list float) : result float :=
  if negb (length x =? length y)%nat
  then Raise (ValueError "x and y must have the same length.")
  else if (length x <? 2)%nat
  then Raise (ValueError "x and y must have length at least 2.")
  else
    match mapM finite_value x, mapM finite_value y with
    | Some xs, Some ys =>
        if constant xs || constant ys then Ok NaN
        else
          let xm := center xs in
          let ym := center ys in
          let norm := sqrt6 (dot xm xm * dot ym ym) in
          if Qeq_bool norm 0 then Ok NaN
          else Ok (Fin (clip (dot xm ym / norm)))
    | _, _ => Ok NaN
    end.

Definition lib : SelectCoreg.Imaging := {|
  SelectCoreg.Image := list float;
  SelectCoreg.binarize_img := binarize;
  SelectCoreg.n_voxels := count_true;
  SelectCoreg.compute_mask := binarize;
  SelectCoreg.apply_mask := mask_voxels;
  SelectCoreg.pearsonr := pearson
|}.

(** Four voxels; the target has signal in the inner two. *)
Definition vol (a b c d : Z) : list float :=
  [Fin (inject_Z a); Fin (inject_Z b); Fin (inject_Z c); Fin (inject_Z d)].

Definition disk : gmap string (file (list float)) :=
  list_to_map
    [ ("/data/target.nii.gz", NiftiFile (vol 0 2 4 0));
      ("/data/copy.nii.gz", NiftiFile (vol 0 2 4 0));
      ("/data/copy2.nii.gz", NiftiFile (vol 0 2 4 0));
      ("/data/flipped.nii.gz", NiftiFile (vol 0 4 2 0));
      ("/data/flat.nii.gz", NiftiFile (vol 3 3 3 3));
      ("/data/flat2.nii.gz", NiftiFile (vol 0 0 0 0));
      ("/data/empty.nii.gz", NiftiFile (vol 0 0 0 0)) ].

Definition st0 : state (list float) := State disk ∅.

Definition inputs (tgt : string) (srcs : list string) (as_list : bool)
  : SelectCoreg.Inputs :=
  {| SelectCoreg.target := tgt;
     SelectCoreg.sources := srcs;
     SelectCoreg.output_list := as_list |}.

Definition target_path : string := "/data/target.nii.gz".

(** A copy of the target, its mirror image and a constant image. *)
Definition three_candidates : SelectCoreg.Inputs :=
  inputs target_path
    ["/data/copy.nii.gz"; "/data/flipped.nii.gz"; "/data/flat.nii.gz"] true.

(** Two identical candidates. *)
Definition two_copies : SelectCoreg.Inputs :=
  inputs target_path ["/data/copy.nii.gz"; "/data/copy2.nii.gz"] false.

(** Two constant candidates: every score is NaN. *)
Definition two_flat : SelectCoreg.Inputs :=
  inputs target_path ["/data/flat.nii.gz"; "/data/flat2.nii.gz"] true.

(** An all-zero target. *)
Definition empty_target : SelectCoreg.Inputs :=
  inputs "/data/empty.nii.gz" ["/data/copy.nii.gz"] true.

(** The copy of the target last, after two other candidates. *)
Definition copy_last : SelectCoreg.Inputs :=
  inputs target_path
    ["/data/flat.nii.gz"; "/data/flipped.nii.gz"; "/data/copy.nii.gz"] true.

(** Another store with the same images: it also holds an unrelated file
    and the results of an earlier run. *)
Definition st1 : state (list float) :=
  State (<["/data/other.nii.gz" := NiftiFile (vol 9 9 9 9)]> disk)
        {[ "source_index" := VInt 7 ]}.

(** Parameter files and dictionaries for [check_params]. *)
Definition json_env : Utils.JsonFiles := {|
  Utils.JValue := string;
  Utils.json_load := fun path =>
    if String.eqb path "params.json"
    then Ok {[ "coregistration_wf" := "ants" ]}
    else Raise (FileNotFoundError path);
  Utils.repr_set := fun _ => "{...}"
|}.

(** Masks for [HemisphereMask]: [n] slabs of one voxel each, all ones. *)
Definition float32_exact : Nmt.Float32 := fun x => x.

Definition ones (n : nat) : list (list (list float)) := replicate n [[one]].

Definition identity_affine : list (list float) :=
  [ [one; zero; zero; zero]; [zero; one; zero; zero];
    [zero; zero; one; zero]; [zero; zero; zero; one] ].

Definition mask66 : Nmt.Nifti1Image :=
  {| Nmt.dataobj := ones 66; Nmt.affine := identity_affine |}.

Definition nmt_st (path : string) : state Nmt.Nifti1Image :=
  State {[ path := NiftiFile mask66 ]} ∅.

End Grid.

(** * Further code of the repository

    The interfaces that run external tools ([GradUnwarp], [InstallNMT],
    [FetchSegmentation], [ResampleImage]), the data sink, the parameter
    loading of the coregistration workflow and the alignment animation.
    What the operating system and the tools do is the class [OS]; the
    session keeps a trace of what the code asks of it. *)

From stdpp Require Import pretty.

(** ** More of Python's strings *)

Module PyText.

(** [s.find(old)] for a non-empty [old]: the index of the first
    occurrence, [None] for Python's [-1]. *)
Fixpoint find_from (old s : string) (i : nat) : option nat :=
  match s with
  | EmptyString => None
  | String _ s' =>
      if String.prefix old s then Some i else find_from old s' (S i)
  end.

Definition find (s old : string) : option nat := find_from old s 0.

(** The ASCII characters that [str.split()] and [str.isspace()] count as
    whitespace: tab to carriage return, the four separators 28 to 31, and
    the space.  Strings are taken to be ASCII. *)
Definition is_space (c : ascii) : bool :=
  let n := nat_of_ascii c in
  ((9 <=? n) && (n <=? 13) || (28 <=? n) && (n <=? 31) || (n =? 32))%nat.

(** [s.split()]: the maximal runs of characters that are not whitespace.
    [cur] is the run read so far. *)
Fixpoint split_from (cur s : string) : list string :=
  match s with
  | EmptyString => if (String.length cur =? 0)%nat then [] else [cur]
  | String c s' =>
      if is_space c then
        if (String.length cur =? 0)%nat then split_from EmptyString s'
        else cur :: split_from EmptyString s'
      else split_from (cur +:+ String c EmptyString) s'
  end.

Definition split (s : string) : list string := split_from EmptyString s.

(** [sep.join(l)]. *)
Fixpoint join_with (sep : string) (l : list string) : string :=
  match l with
  | [] => EmptyString
  | [w] => w
  | w :: rest => w +:+ sep +:+ join_with sep rest
  end.

(** A string without whitespace, and a word: such a string that is not
    empty. *)
Fixpoint no_space (s : string) : bool :=
  match s with
  | EmptyString => true
  | String c s' => negb (is_space c) && no_space s'
  end.

Definition is_word (s : string) : bool :=
  negb (String.length s =? 0)%nat && no_space s.

(** A string without a slash. *)
Fixpoint no_slash (s : string) : bool :=
  match s with
  | EmptyString => true
  | String c s' => negb (Ascii.eqb c "/"%char) && no_slash s'
  end.

(** What [os.path.join(a, b)] puts in front of a relative [b]. *)
Definition join_prefix (a : string) : string :=
  if (String.length a =? 0)%nat || PyStr.ends_with_slash a then a
  else a +:+ "/".

End PyText.

(** ** Exceptions beyond those above, and the tools' environment *)

Module PyErr.

(** The exception classes of the code below: those of [exn], and
    [IndexError], [shutil.SameFileError] and other [OSError]s. *)
Inductive exc : Type :=
| Builtin (e : exn)
| IndexError (msg : string)
| SameFileError (src dst : string)
| OSError (msg : string).

Inductive outcome (A : Type) : Type :=
| Return (a : A)
| Throw (e : exc).

Arguments Return {A} a.
Arguments Throw {A} e.

Definition returned {A} (r : outcome A) : bool :=
  match r with Return _ => true | Throw _ => false end.

(** Statements over a store, as [M] above. *)
Definition MX (St A : Type) : Type := St -> outcome A * St.

#[export] Instance MX_ret {St} : MRet (MX St) := fun _ a st => (Return a, st).

#[export] Instance MX_bind {St} : MBind (MX St) := fun _ _ f m st =>
  match m st with
  | (Return a, st') => f a st'
  | (Throw e, st') => (Throw e, st')
  end.

Definition throw {St A} (e : exc) : MX St A := fun st => (Throw e, st).

Definition update {St} (f : St -> St) : MX St () := fun st => (Return (), f st).

(** [for x in l: body(x)]. *)
Fixpoint foreach {St A} (l : list A) (body : A -> MX St ()) : MX St () :=
  match l with
  | [] => mret ()
  | x :: rest => body x;; foreach rest body
  end.

End PyErr.

Export PyErr.

Module Proc.

(** The operating system under the interfaces: [os.path.exists],
    [os.listdir], [os.makedirs(path, exist_ok=True)], [os.path.abspath],
    and what running a program does.  [subprocess.run(argv)] raises when the
    program cannot be started; its exit status is not looked at by any
    caller here ([check] is not set), so it is not part of the result. *)
Class OS : Type := {
  World : Type;
  path_exists : World -> string -> bool;
  listdir : World -> string -> outcome (list string);
  makedirs : string -> World -> outcome World;
  abspath : World -> string -> string;
  run_program : list string -> World -> outcome World
}.

(** What the code asks of the operating system, oldest first. *)
Inductive event : Type :=
| MakeDirs (path : string)
| Exec (argv : list string)
| SaveFig (path : string)
| Copy (src dst : string).

Section Session.
Context {os : OS}.

(** The store of an interface that runs tools: the world, the trace of
    requests, and the interface's [_results]. *)
Record session : Type := Session {
  world : World;
  trace : list event;
  outputs : gmap string value
}.

Definition record (ev : event) : MX session () :=
  update (fun st => Session (world st) (trace st ++ [ev]) (outputs st)).

Definition on_world (f : World -> outcome World) : MX session () :=
  fun st =>
    match f (world st) with
    | Return w => (Return (), Session w (trace st) (outputs st))
    | Throw e => (Throw e, st)
    end.

(** [os.path.exists(path)]. *)
Definition os_path_exists (path : string) : MX session bool :=
  fun st => (Return (path_exists (world st) path), st).

(** [os.listdir(path)]. *)
Definition os_listdir (path : string) : MX session (list string) :=
  fun st => (listdir (world st) path, st).

(** [os.makedirs(path, exist_ok=True)]. *)
Definition os_makedirs (path : string) : MX session () :=
  record (MakeDirs path);; on_world (makedirs path).

(** [os.path.abspath(path)]. *)
Definition os_path_abspath (path : string) : MX session string :=
  fun st => (Return (abspath (world st) path), st).

(** [subprocess.run(argv)], with or without [stdout=subprocess.DEVNULL]. *)
Definition subprocess_run (argv : list string) : MX session () :=
  record (Exec argv);; on_world (run_program argv).

(** [self._results[key] = v]. *)
Definition set_output (key : string) (v : value) : MX session () :=
  update (fun st => Session (world st) (trace st) (<[key := v]> (outputs st))).

End Session.

End Proc.

(** ** interfaces/gradunwarp.py *)

Module GradUnwarp.

(** Line 29: the name of the corrected image. *)
Definition out_file_name (in_file : string) : string :=
  PyStr.replace (PyStr.basename in_file) ".nii.gz" "_gdc.nii.gz".

(** Line 31: the command line, before it is split. *)
Definition command (in_file coeffs : string) : string :=
  "gradient_unwarp.py " +:+ in_file +:+ " " +:+ out_file_name in_file +:+
  " siemens -g " +:+ coeffs +:+ " -n".

Section Run.
Context {os : Proc.OS}.

(** [GradUnwarp._run_interface], with [runtime.cwd] as [cwd]. *)
Definition run_interface (in_file coeffs cwd : string) : MX Proc.session () :=
  let out_file := out_file_name in_file in
  let cmd := command in_file coeffs in
  Proc.subprocess_run (PyText.split cmd);;
  Proc.set_output "out_file" (VStr (PyStr.join cwd out_file));;
  Proc.set_output "out_warp" (VStr (PyStr.join cwd "fullWarp_abs.nii.gz")).

End Run.

End GradUnwarp.

(** ** interfaces/nmt.py: InstallNMT and FetchSegmentation *)

Module NmtTools.

(** The file a mask array is saved as, and the path it is saved under
    (lines 83 and 85 of [HemisphereMask._run_interface]). *)
Definition saved {cast : Nmt.Float32} (mask_img : Nmt.Nifti1Image)
    (m : list (list (list float))) : Nmt.Nifti1Image :=
  {| Nmt.dataobj := Nmt.astype m; Nmt.affine := Nmt.affine mask_img |}.

Definition out_path (brain_mask cwd name : string) : string :=
  PyStr.join cwd
    (PyStr.replace (PyStr.basename brain_mask) ".nii.gz"
       ("_" +:+ name +:+ ".nii.gz")).

(** Lines 39-42: the installer's command line. *)
Definition install_command (install_path : string) : string :=
  "@Install_NMT -install_dir " +:+ install_path +:+
  " -nmt_ver 2.0 -sym sym -overwrite".

(** Lines 45-48: the directory reported as [nmt_path]. *)
Definition nmt_path (install_path : string) (use_05mm : bool) : string :=
  let subdir := "NMT_v2.0_sym" in
  let subdir := if use_05mm then subdir +:+ "_05mm" else subdir in
  PyStr.join (PyStr.join install_path "NMT_v2.0_sym") subdir.

(** Lines 114-122: the files fetched and the command line for one. *)
Definition fnames : list string :=
  ["segmentation"; "csf"; "gray_matter"; "subctx_cb"; "white_matter"].

Definition gh_url : string :=
  "https://raw.githubusercontent.com/danjgale/" +:+
  "better-nmt-segmentation/main/segmentations/".

Definition wget_command (install_path i : string) : string :=
  "wget " +:+ gh_url +:+ "/" +:+ i +:+ ".nii.gz -P " +:+ install_path.

(** The address in that command line. *)
Definition wget_url (i : string) : string := gh_url +:+ "/" +:+ i +:+ ".nii.gz".

Section Run.
Context {os : Proc.OS}.

(** [InstallNMT._run_interface]. *)
Definition install_nmt (install_path : string) (overwrite use_05mm : bool)
  : MX Proc.session () :=
  found ← Proc.os_path_exists install_path;
  (if negb found || overwrite then
     Proc.os_makedirs install_path;;
     Proc.subprocess_run (PyText.split (install_command install_path))
   else mret ());;
  Proc.set_output "nmt_path" (VStr (nmt_path install_path use_05mm)).

(** [FetchSegmentation._run_interface]. *)
Definition fetch_segmentation (install_path : string) (overwrite : bool)
  : MX Proc.session () :=
  install_path ← Proc.os_path_abspath install_path;
  found ← Proc.os_path_exists install_path;
  (if negb found || overwrite then
     Proc.os_makedirs install_path;;
     foreach fnames (fun i =>
       Proc.subprocess_run (PyText.split (wget_command install_path i)))
   else mret ());;
  Proc.set_output "segmentation_path" (VStr install_path).

(** workflows/nmt.py, line 102: whether [setup_nmt] builds and runs the
    workflow, whose first node is [InstallNMT] on [template_dir] with
    [overwrite] left unset. *)
Definition setup_runs_workflow (template_dir : string) : MX Proc.session bool :=
  found ← Proc.os_path_exists template_dir;
  if (found : bool) then
    entries ← Proc.os_listdir template_dir;
    mret (bool_decide (entries = []))
  else mret false.

End Run.

End NmtTools.

(** ** workflows/coregister.py: the parameters of the workflow *)

Module Coregister.

Section Params.
Context {env : Utils.JsonFiles}.

(** [not params], for [None], a dict, or a path given as a string. *)
Definition falsy (params : option Utils.params_arg) : bool :=
  match params with
  | None => true
  | Some (Utils.ParamsDict d) => bool_decide (d = ∅)
  | Some (Utils.ParamsPath path) => (String.length path =? 0)%nat
  end.

(** [d[key]]. *)
Definition subscript (d : gmap string Utils.JValue) (key : string)
  : result Utils.JValue :=
  match d !! key with
  | Some v => Ok v
  | None => Raise (KeyError key)
  end.

(** Lines 42-45 of [init_coregistration_wf]; [packaged] is the path that
    [pkgr_fn("macaque_workflows.data", "params.json")] returns. *)
Definition workflow_params (packaged : string)
    (params : option Utils.params_arg) : result Utils.JValue :=
  let params :=
    match params with
    | Some given => if falsy params then Utils.ParamsPath packaged else given
    | None => Utils.ParamsPath packaged
    end in
  params ← Utils.check_params params {[ "coregistration_wf" ]};
  subscript params "coregistration_wf".

End Params.

End Coregister.

(** ** interfaces/qc.py: the alignment animation *)

Module QC.

(** [plotting.plot_anat] or [plotting.plot_epi]. *)
Inductive plot_func : Type := plot_anat | plot_epi.

(** The dict that [_find_cut_coords] builds: the cut positions along
    each axis. *)
Record cuts : Type := Cuts {
  cut_x : list float;
  cut_y : list float;
  cut_z : list float
}.

(** nilearn and matplotlib under the interfaces: loading an image,
    [plotting.find_cut_slices(img, direction, n_cuts)], the drawing that
    lines 48 to 67 of [_plot_mosaic] ask for (three rows of slices drawn
    by [plot_func] at the cut positions, the title on the first row, on a
    figure sized for [n_slices] slices), and [fig.savefig(path, dpi=200)]. *)
Class Plotting {os : Proc.OS} : Type := {
  Niimg : Type;
  Figure : Type;
  check_niimg : Proc.World -> string -> outcome Niimg;
  find_cut_slices : Niimg -> string -> nat -> outcome (list float);
  draw_mosaic : plot_func -> Niimg -> cuts -> option string -> nat ->
                outcome Figure;
  savefig : Figure -> string -> Proc.World -> outcome Proc.World
}.

Section Run.
Context {os : Proc.OS} {plt : Plotting}.

(** A call that reads nothing and changes nothing. *)
Definition call {A} (r : outcome A) : MX Proc.session A := fun st => (r, st).

Definition load (path : string) : MX Proc.session Niimg :=
  fun st => (check_niimg (Proc.world st) path, st).

Definition fig_savefig (fig : Figure) (path : string) : MX Proc.session () :=
  Proc.record (Proc.SaveFig path);; Proc.on_world (savefig fig path).

(** [_find_cut_coords(img)]. *)
Definition find_cut_coords (img : Niimg) : MX Proc.session cuts :=
  x ← call (find_cut_slices img "x" 9);
  y ← call (find_cut_slices img "y" 9);
  z ← call (find_cut_slices img "z" 9);
  mret (Cuts x y z).

(** [_plot_mosaic(img, plot_type, cut_coords, title)], as its callers use
    it: without [figsize] and without further keyword arguments.  The
    panels it also returns are not used by [AlignmentQC]. *)
Definition plot_mosaic (img : Niimg) (plot_type : string)
    (cut_coords : option cuts) (title : option string)
  : MX Proc.session Figure :=
  plot_func ←
    (if String.eqb plot_type "anat" then mret plot_anat
     else if String.eqb plot_type "epi" then mret plot_epi
     else throw (Builtin
                   (ValueError "plot_type must be either 'anat' or 'epi'")));
  cut_coords ← match cut_coords with
                | Some c => mret c
                | None => find_cut_coords img
                end;
  let n_slices :=
    Nat.max (length (cut_x cut_coords))
      (Nat.max (length (cut_y cut_coords)) (length (cut_z cut_coords))) in
  call (draw_mosaic plot_func img cut_coords title n_slices).

(** The text of line 78, before it is split. *)
Definition gif_command (input_imgs : list string) (out : string)
    (delay morph : Z) : string :=
  "convert -delay " +:+ pretty delay +:+ " " +:+
  PyText.join_with " " input_imgs +:+
  " -morph " +:+ pretty morph +:+ " -loop 0 " +:+ out.

(** [_alignment_gif(imgs, out, delay, morph, smooth_loop)].  The list
    [imgs] is the caller's object and [append] changes it in place, so
    the store here is that list together with the session. *)
Definition alignment_gif (out : string) (delay morph : Z) (smooth_loop : bool)
  : MX (list string * Proc.session) () :=
  fun '(imgs, st) =>
    let appended :=
      if smooth_loop then
        match imgs with
        | [] => Throw (IndexError "list index out of range")
        | first :: _ => Return (imgs ++ [first])
        end
      else Return imgs in
    match appended with
    | Throw e => (Throw e, (imgs, st))
    | Return input_imgs =>
        let cmd := gif_command input_imgs out delay morph in
        let '(r, st') := Proc.subprocess_run (PyText.split cmd) st in
        (r, (input_imgs, st'))
    end.

(** A call that is handed a list of the caller's own, not used again. *)
Definition with_local {A} (l : list string)
    (m : MX (list string * Proc.session) A) : MX Proc.session A :=
  fun st => let '(r, (_, st')) := m (l, st) in (r, st').

(** [[check_niimg(i) for i in input_imgs]]. *)
Fixpoint load_all (paths : list string) : MX Proc.session (list Niimg) :=
  match paths with
  | [] => mret []
  | p :: rest => img ← load p; imgs ← load_all rest; mret (img :: imgs)
  end.

(** [[f"img{i + 1}" for i in range(n)]]. *)
Definition default_names (n : nat) : list string :=
  map (fun i => "img" +:+ pretty (i + 1)%nat) (seq 0 n).

(** Lines 167-176: the loop over [zip(img_names, input_imgs)], with the
    [tmp_files] collected so far. *)
Fixpoint plot_frames (img_type cwd : string) (cut_coords : cuts)
    (pairs : list (string * Niimg)) (tmp_files : list string)
  : MX Proc.session (list string) :=
  match pairs with
  | [] => mret tmp_files
  | (name, img) :: rest =>
      fig ← plot_mosaic img img_type (Some cut_coords) (Some name);
      let out := PyStr.join cwd (name +:+ ".png") in
      fig_savefig fig out;;
      plot_frames img_type cwd cut_coords rest (tmp_files ++ [out])
  end.

(** [AlignmentQC._run_interface]; an [img_names] that is not set counts
    as the empty list. *)
Definition alignment_qc (input_imgs img_names : list string)
    (img_type cwd : string) : MX Proc.session () :=
  input_imgs ← load_all input_imgs;
  let img_names :=
    if (length img_names =? 0)%nat then default_names (length input_imgs)
    else img_names in
  first ← match input_imgs with
           | [] => throw (IndexError "list index out of range")
           | img :: _ => mret img
           end;
  cut_coords ← find_cut_coords first;
  tmp_files ← plot_frames img_type cwd cut_coords (zip img_names input_imgs) [];
  let out_file := PyStr.join cwd "alignment.gif" in
  with_local tmp_files (alignment_gif out_file 15 10 true);;
  Proc.set_output "out_file" (VStr out_file).

(** The frame files of a run: one per name that has an image. *)
Definition frame_files (cwd : string) (names : list string) (n : nat)
  : list string :=
  map (fun name => PyStr.join cwd (name +:+ ".png")) (take n names).

End Run.

End QC.

(** ** interfaces/nmt.py: NMTDataSink *)

Module DataSink.

(** [shutil.copy2(src, dst)]. *)
Class Files {os : Proc.OS} : Type :=
  copy2 : string -> string -> Proc.World -> outcome Proc.World.

(** The inputs of the interface. *)
Record Inputs : Type := {
  output_path : string;
  dilated_mask : string;
  dilated_brain : string;
  right_mask : string;
  left_mask : string;
  cortex_mask : string
}.

(** Lines 153-159: the dict, in insertion order. *)
Definition filemap (inputs : Inputs) : list (string * string) :=
  [("dilated_mask.nii.gz", dilated_mask inputs);
   ("dilated_brain.nii.gz", dilated_brain inputs);
   ("right_mask.nii.gz", right_mask inputs);
   ("left_mask.nii.gz", left_mask inputs);
   ("cortical_mask.nii.gz", cortex_mask inputs)].

Definition dest (inputs : Inputs) : string :=
  PyStr.join (output_path inputs) "custom".

(** The copies the loop asks for. *)
Definition copies (inputs : Inputs) : list Proc.event :=
  map (fun '(k, v) => Proc.Copy v (PyStr.join (dest inputs) k)) (filemap inputs).

Section Run.
Context {os : Proc.OS} {files : Files}.

Definition shutil_copy2 (src dst : string) : MX Proc.session () :=
  Proc.record (Proc.Copy src dst);; Proc.on_world (copy2 src dst).

(** [NMTDataSink._run_interface]. *)
Definition run_interface (inputs : Inputs) : MX Proc.session () :=
  let dest := dest inputs in
  Proc.os_makedirs dest;;
  foreach (filemap inputs) (fun '(k, v) => shutil_copy2 v (PyStr.join dest k));;
  Proc.set_output "out_path" (VStr dest).

End Run.

End DataSink.

(** ** interfaces/resample.py *)

Module Resample.

(** nibabel and numpy under [ResampleImage]: the sform of an image file
    ([nib.load(path).header.get_sform()]) and the text an f-string gives
    for one of its entries. *)
Class Headers {os : Proc.OS} : Type := {
  get_sform : Proc.World -> string -> outcome (list (list float));
  str_float64 : float -> string
}.

(** [np.diag(m)] for a matrix: the entries [m[i][i]]. *)
Fixpoint diag_from (i : nat) (m : list (list float)) : list float :=
  match m with
  | [] => []
  | row :: rest =>
      match row !! i with
      | Some x => x :: diag_from (S i) rest
      | None => []
      end
  end.

Definition diag (m : list (list float)) : list float := diag_from 0 m.

(** The text of lines 47-50, before it is split. *)
Definition command {os : Proc.OS} {hdr : Headers} (dimension : Z)
    (input_image output_image interp : string) (d0 d1 d2 : float) : string :=
  "ResampleImage " +:+ pretty dimension +:+ " " +:+ input_image +:+ " " +:+
  output_image +:+ " " +:+
  str_float64 d0 +:+ "x" +:+ str_float64 d1 +:+ "x" +:+ str_float64 d2 +:+
  " [1,0] " +:+ interp.

(** What the code takes of [str_float64]: the text is a word. *)
Definition float_text_is_word {os : Proc.OS} {hdr : Headers} : Prop :=
  forall x, PyText.is_word (str_float64 x) = true.

Section Run.
Context {os : Proc.OS} {hdr : Headers}.

(** [nib.load(path).header.get_sform()]. *)
Definition load_sform (path : string) : MX Proc.session (list (list float)) :=
  fun st => (get_sform (Proc.world st) path, st).

(** [_fetch_ref_dims(in_file)]. *)
Definition fetch_ref_dims (in_file : string) : MX Proc.session (list float) :=
  sform ← load_sform in_file;
  mret (removelast (diag sform)).

(** [t[i]] on a tuple. *)
Definition item (t : list float) (i : nat) : MX Proc.session float :=
  match t !! i with
  | Some x => mret x
  | None => throw (IndexError "tuple index out of range")
  end.

(** [ResampleImage._run_interface]. *)
Definition run_interface (input_image : string) (dimension : Z)
    (reference_image interp output_image cwd : string) : MX Proc.session () :=
  voxdims ← fetch_ref_dims reference_image;
  d0 ← item voxdims 0;
  d1 ← item voxdims 1;
  d2 ← item voxdims 2;
  let cmd := command dimension input_image output_image interp d0 d1 d2 in
  Proc.subprocess_run (PyText.split cmd);;
  Proc.set_output "output_image" (VStr (PyStr.join cwd output_image)).

End Run.

End Resample.

(** ** An operating system to run the tools on

    The world is the set of paths that exist; a program starts when it is
    one of the installed ones, and then changes nothing. *)

Module Host.

Definition installed : list string :=
  ["gradient_unwarp.py"; "@Install_NMT"; "wget"; "ResampleImage"; "convert"].

Definition start (argv : list string) (w : gset string) : outcome (gset string) :=
  match argv with
  | [] => Throw (IndexError "list index out of range")
  | prog :: _ =>
      if bool_decide (prog ∈ installed) then Return w
      else Throw (Builtin (FileNotFoundError prog))
  end.

Definition os : Proc.OS := {|
  Proc.World := gset string;
  Proc.path_exists := fun w path => bool_decide (path ∈ w);
  Proc.listdir := fun w path =>
    if bool_decide (path ∈ w) then Return []
    else Throw (Builtin (FileNotFoundError path));
  Proc.makedirs := fun path w => Return ({[ path ]} ∪ w);
  Proc.abspath := fun _ path =>
    if String.prefix "/" path then path else "/home/lab/" +:+ path;
  Proc.run_program := start
|}.

Definition fresh : Proc.session (os := os) := Proc.Session (os := os) ∅ [] ∅.

(** A session in which the given paths exist. *)
Definition having (paths : list string) : Proc.session (os := os) :=
  Proc.Session (os := os) (list_to_set paths) [] ∅.

Definition open_file (w : gset string) (path : string) : outcome string :=
  if bool_decide (path ∈ w) then Return path
  else Throw (Builtin (FileNotFoundError path)).

(** Images are known by their path, figures by their title; a figure
    can always be drawn and saved. *)
Definition plt : QC.Plotting (os := os) := {|
  QC.Niimg := string;
  QC.Figure := option string;
  QC.check_niimg := fun (w : Proc.World (OS := os)) path => open_file w path;
  QC.find_cut_slices := fun _ _ n => Return (replicate n (Fin 0));
  QC.draw_mosaic := fun _ _ _ title _ => Return title;
  QC.savefig := fun _ path (w : Proc.World (OS := os)) =>
    Return ({[ path ]} ∪ w : gset string)
|}.

(** Copying needs the source to exist and to differ from the
    destination. *)
Definition files : DataSink.Files (os := os) := fun src dst w =>
  if bool_decide (src ∈ w) then
    if bool_decide (src = dst) then Throw (SameFileError src dst)
    else Return ({[ dst ]} ∪ w)
  else Throw (Builtin (FileNotFoundError src)).

(** The text of a number, cut after the tenths. *)
Definition tenths (x : float) : string :=
  match x with
  | NaN => "nan"
  | NegInf => "-inf"
  | PosInf => "inf"
  | Fin q =>
      let t := (Qnum q * 10 / Zpos (Qden q))%Z in
      (if (t <? 0)%Z then "-" else "") +:+
      pretty (Z.abs t / 10)%Z +:+ "." +:+ pretty (Z.abs t mod 10)%Z
  end.

(** Every image has half-millimetre voxels. *)
Definition half_mm : list (list float) :=
  [[Fin 0.5; Fin 0; Fin 0; Fin 0];
   [Fin 0; Fin 0.5; Fin 0; Fin 0];
   [Fin 0; Fin 0; Fin 0.5; Fin 0];
   [Fin 0; Fin 0; Fin 0; Fin 1]].

Definition hdr : Resample.Headers (os := os) := {|
  Resample.get_sform := fun w path =>
    if bool_decide (path ∈ w) then Return half_mm
    else Throw (Builtin (FileNotFoundError path));
  Resample.str_float64 := tenths
|}.

End Host.

(** * Properties *)

(** ** The order on doubles *)

Lemma float_leb_refl (x : float) : isnan x = false -> Float.leb x x = true.
Proof.
  destruct x; simpl; try done.
  intros _. apply Qle_bool_iff, Qle_refl.
Qed.

Lemma float_leb_total (x y : float) :
  isnan x = false -> isnan y = false ->
  Float.leb x y = false -> Float.leb y x = true.
Proof.
  destruct x, y; simpl; try done.
  intros _ _ Hxy. apply Qle_bool_iff.
  destruct (Qlt_le_dec q0 q) as [Hlt | Hle].
  - by apply Qlt_le_weak.
  - apply Qle_bool_iff in Hle. congruence.
Qed.

Lemma float_leb_trans (x y z : float) :
  Float.leb x y = true -> Float.leb y z = true -> Float.leb x z = true.
Proof.
  destruct x, y, z; simpl; try done.
  rewrite !Qle_bool_iff. apply Qle_trans.
Qed.

Lemma float_leb_not_nan (x y : float) :
  Float.leb x y = true -> isnan x = false /\ isnan y = false.
Proof. by destruct x, y. Qed.

(** ** argmax and nanargmax *)

Lemma argmax_scan_first_max (ip pre : list float) (mp : float) (k : nat) :
  Forall (fun x => isnan x = false) ip ->
  first_max pre k mp ->
  exists m, first_max (pre ++ ip) (argmax_scan mp k (length pre) ip) m.
Proof.
  revert pre mp k. induction ip as [| x rest IH]; intros pre mp k Hnan Hpre.
  - simpl. rewrite app_nil_r. by exists mp.
  - apply Forall_cons in Hnan as [Hx Hrest].
    destruct Hpre as (Hk & Hmax & Hfirst).
    assert (Hmp : isnan mp = false).
    { by apply float_leb_not_nan with mp, (Hmax k). }
    simpl. rewrite Hx.
    replace (pre ++ x :: rest) with ((pre ++ [x]) ++ rest)
      by (by rewrite <- app_assoc).
    replace (S (length pre)) with (length (pre ++ [x]))
      by (rewrite length_app; simpl; lia).
    destruct (Float.leb x mp) eqn:Hle; simpl.
    + apply IH; [done |]. repeat split.
      * rewrite lookup_app_l; [done |]. by eapply lookup_lt_Some.
      * intros j y Hj. apply lookup_app_Some in Hj as [Hj | [_ Hj]].
        -- by eapply Hmax.
        -- apply list_lookup_singleton_Some in Hj as [_ <-]. done.
      * intros j y Hjk Hj. apply lookup_app_Some in Hj as [Hj | [Hlen _]].
        -- by eapply Hfirst.
        -- apply lookup_lt_Some in Hk. lia.
    + apply IH; [done |]. repeat split.
      * rewrite lookup_app_r; [| lia]. by rewrite Nat.sub_diag.
      * intros j y Hj. apply lookup_app_Some in Hj as [Hj | [_ Hj]].
        -- apply float_leb_trans with mp; [by eapply Hmax |].
           by apply float_leb_total.
        -- apply list_lookup_singleton_Some in Hj as [_ <-].
           by apply float_leb_refl.
      * intros j y Hjk Hj. apply lookup_app_Some in Hj as [Hj | [Hlen _]].
        -- destruct (Float.leb x y) eqn:Hxy; [| done].
           rewrite (float_leb_trans x y mp) in Hle; [done | done |].
           by eapply Hmax.
        -- lia.
Qed.

Lemma argmax_first_max (a : list float) :
  a <> [] -> Forall (fun x => isnan x = false) a ->
  exists r m, argmax a = Ok r /\ first_max a r m.
Proof.
  destruct a as [| x rest]; [done |]. intros _ Hnan.
  apply Forall_cons in Hnan as [Hx Hrest].
  simpl. rewrite Hx.
  assert (Hinit : first_max [x] 0 x).
  { repeat split; [| intros; lia].
    intros j y Hj. apply list_lookup_singleton_Some in Hj as [_ <-].
    by apply float_leb_refl. }
  destruct (argmax_scan_first_max rest [x] x 0 Hrest Hinit) as [m Hm].
  by exists (argmax_scan x 0 1 rest), m.
Qed.

Lemma nan_mask_all_true (a : list float) :
  forallb id (map isnan a) = true <-> Forall (fun x => isnan x = true) a.
Proof.
  induction a as [| x rest IH]; simpl.
  - by split.
  - rewrite andb_true_iff, Forall_cons, IH. done.
Qed.

(** What [nanargmax] returns on an array with a score that is neither NaN
    nor [-inf]: the first index that attains the largest non-NaN value. *)
Lemma nanargmax_first_max (a : list float) :
  (exists j s, a !! j = Some s /\ isnan s = false /\ s <> NegInf) ->
  exists r m,
    nanargmax a = Ok r /\ a !! r = Some m /\ isnan m = false /\
    (forall j x, a !! j = Some x -> isnan x = false -> Float.leb x m = true) /\
    (forall j x, (j < r)%nat -> a !! j = Some x -> isnan x = false ->
                 Float.leb m x = false).
Proof.
  intros (j0 & s0 & Hj0 & Hs0 & Hinf).
  set (f := fun x : float => if isnan x then NegInf else x).
  assert (Hf : forall x, isnan x = false -> f x = x).
  { intros x Hx. unfold f. by rewrite Hx. }
  assert (Hlook : forall j x, a !! j = Some x -> map f a !! j = Some (f x)).
  { intros j x Hj. change (map f a) with (f <$> a).
    by rewrite list_lookup_fmap, Hj. }
  destruct (argmax_first_max (map f a)) as (r & m & Hr & Hrm & Hmax & Hfirst).
  { intros Hnil. apply Hlook in Hj0. by rewrite Hnil in Hj0. }
  { apply Forall_fmap, Forall_forall. intros x _. simpl. unfold f.
    by destruct x. }
  exists r, m. unfold nanargmax, replace_nan. fold f.
  assert (Hsome : forallb id (map isnan a) = false).
  { apply not_true_is_false. rewrite nan_mask_all_true, Forall_lookup.
    intros Hall. specialize (Hall _ _ Hj0). simpl in Hall. congruence. }
  rewrite Hsome, andb_false_r.
  assert (Hm : Float.leb s0 m = true).
  { apply (Hmax j0). rewrite <- (Hf s0 Hs0). by apply Hlook. }
  change (map f a) with (f <$> a) in Hrm.
  rewrite list_lookup_fmap in Hrm.
  destruct (a !! r) as [y |] eqn:Hy; [| done].
  simpl in Hrm. injection Hrm as Hrm.
  assert (Hynan : isnan y = false).
  { destruct (isnan y) eqn:E; [| done]. unfold f in Hrm. rewrite E in Hrm.
    subst m. by destruct s0. }
  rewrite (Hf y Hynan) in Hrm. subst y.
  repeat split; try done.
  - intros j x Hj Hx. apply (Hmax j). rewrite <- (Hf x Hx). by apply Hlook.
  - intros j x Hjr Hj Hx. apply (Hfirst j); [done |].
    rewrite <- (Hf x Hx). by apply Hlook.
Qed.

(** On a non-empty array of NaNs [nanargmax] raises. *)
Lemma nanargmax_all_nan (a : list float) :
  a <> [] -> Forall (fun x => isnan x = true) a ->
  nanargmax a = Raise (ValueError "All-NaN slice encountered").
Proof.
  intros Hne Hall. unfold nanargmax, replace_nan.
  apply nan_mask_all_true in Hall. rewrite Hall.
  destruct a; [done |]. done.
Qed.

(** ** select_coreg.py: the scoring loop *)

Section SelectCoregFacts.
Import SelectCoreg.
Context {lib : Imaging}.

Lemma bind_unfold {St A B} (m : M St A) (f : A -> M St B) (st : St) :
  (m ≫= f) st =
  match m st with
  | (Ok a, st') => f a st'
  | (Raise e, st') => (Raise e, st')
  end.
Proof. reflexivity. Qed.

(** Refitting a masker that was given a mask changes nothing: the loop
    body computes [score_candidate] and hands on a masker that still
    carries the mask. *)
Lemma fit_transform_source (masker : NiftiMasker) (mask : Image)
    (src : string) (st : state Image) :
  mask_img masker = Some mask ->
  fit_transform masker (inl src) st =
  (match fs st !! src with
   | None => Raise (FileNotFoundError src)
   | Some (TextFile _) => Raise (ImageFileError src)
   | Some (NiftiFile img) =>
       a ← apply_mask img mask;
       Ok ({| mask_img := Some mask; mask_img_ := Some mask |}, a)
   end, st).
Proof.
  intros Hmask. unfold fit_transform, check_niimg, nib_load, reads.
  rewrite bind_unfold.
  destruct (fs st !! src) as [[img | rows] |]; try done.
  rewrite bind_unfold. unfold pure_call, reads, transform, fit. simpl.
  rewrite Hmask. by destruct (apply_mask img mask).
Qed.

Lemma score_sources_pure (srcs : list string) (masker : NiftiMasker)
    (mask : Image) (target_vox correlations : list float) (st : state Image) :
  mask_img masker = Some mask ->
  exists masker',
    mask_img masker' = Some mask /\
    score_sources masker target_vox correlations srcs st =
    (l ← score_all st mask target_vox srcs; Ok (masker', correlations ++ l), st).
Proof.
  revert masker correlations.
  induction srcs as [| src rest IH]; intros masker correlations Hmask.
  - exists masker. split; [done |]. simpl. by rewrite app_nil_r.
  - simpl. rewrite bind_unfold, (fit_transform_source _ mask) by done.
    unfold score_candidate.
    destruct (fs st !! src) as [[img | rows] |];
      try (by exists masker).
    destruct (apply_mask img mask) as [a | e]; [| by exists masker].
    simpl. rewrite bind_unfold. unfold pure_call, reads.
    destruct (pearsonr target_vox (ravel a)) as [r | e]; [| by exists masker].
    destruct (IH {| mask_img := Some mask; mask_img_ := Some mask |}
                 (correlations ++ [r])) as (masker' & Hmask' & ->); [done |].
    destruct (score_all st mask target_vox rest) as [l | e]; simpl.
    + exists masker'. split; [done |]. by rewrite <- app_assoc.
    + by exists masker.
Qed.

(** The statements up to the end of the loop only read the store, and
    their value is [score_vector]. *)
Lemma correlations_of_pure (inputs : Inputs) (st : state Image) :
  correlations_of inputs st = (score_vector inputs st, st).
Proof.
  unfold correlations_of, score_vector, nib_load, reads.
  rewrite bind_unfold.
  destruct (fs st !! target inputs) as [[t | rows] |]; try done.
  rewrite bind_unfold.
  unfold fit_transform, check_niimg. rewrite bind_unfold. simpl.
  rewrite bind_unfold. unfold pure_call, reads, transform, fit. simpl.
  destruct (apply_mask t (binarize_img t)) as [a | e]; [| done]. simpl.
  rewrite bind_unfold.
  destruct (score_sources_pure (sources inputs)
              {| mask_img := Some (binarize_img t);
                 mask_img_ := Some (binarize_img t) |}
              (binarize_img t) (ravel a) [] st) as (masker' & _ & ->); [done |].
  by destruct (score_all st (binarize_img t) (ravel a) (sources inputs)).
Qed.

(** [_run_interface] is the scoring followed by selection and saving. *)
Lemma run_interface_split (inputs : Inputs) (cwd : string) (st : state Image) :
  run_interface inputs cwd st =
  match score_vector inputs st with
  | Ok correlations => select_and_save inputs cwd correlations st
  | Raise e => (Raise e, st)
  end.
Proof.
  rewrite <- (bind_unfold (fun st => (score_vector inputs st, st))).
  unfold run_interface, score_vector, nib_load, reads.
  rewrite !bind_unfold.
  destruct (fs st !! target inputs) as [[t | rows] |]; try done.
  rewrite !bind_unfold.
  unfold fit_transform, check_niimg. rewrite !bind_unfold. simpl.
  rewrite !bind_unfold. unfold pure_call, reads, transform, fit. simpl.
  destruct (apply_mask t (binarize_img t)) as [a | e]; [| done]. simpl.
  rewrite !bind_unfold.
  destruct (score_sources_pure (sources inputs)
              {| mask_img := Some (binarize_img t);
                 mask_img_ := Some (binarize_img t) |}
              (binarize_img t) (ravel a) [] st) as (masker' & _ & ->); [done |].
  by destruct (score_all st (binarize_img t) (ravel a) (sources inputs)).
Qed.

Lemma select_and_save_ok (inputs : Inputs) (cwd : string)
    (correlations : list float) (st : state Image) (idx : nat) :
  nanargmax correlations = Ok idx ->
  select_and_save inputs cwd correlations st =
  (Ok (),
   State (<[PyStr.join cwd "corrs.csv" := TextFile correlations]> (fs st))
         (<["correlations" := VStr (PyStr.join cwd "corrs.csv")]>
            (<["source_index" := wrap_index (output_list inputs) idx]>
               (results st)))).
Proof.
  intros Hidx. unfold select_and_save, pure_call, reads.
  rewrite bind_unfold, Hidx. reflexivity.
Qed.

Lemma select_and_save_raise (inputs : Inputs) (cwd : string)
    (correlations : list float) (st : state Image) (e : exn) :
  nanargmax correlations = Raise e ->
  select_and_save inputs cwd correlations st = (Raise e, st).
Proof.
  intros Hidx. unfold select_and_save, pure_call, reads.
  rewrite bind_unfold, Hidx. reflexivity.
Qed.

(** A successful run stores the wrapped index and the score file. *)
Lemma run_interface_ok (inputs : Inputs) (cwd : string) (st : state Image)
    (correlations : list float) (idx : nat) :
  score_vector inputs st = Ok correlations ->
  nanargmax correlations = Ok idx ->
  exists st',
    run_interface inputs cwd st = (Ok (), st') /\
    results st' !! "source_index" = Some (wrap_index (output_list inputs) idx) /\
    fs st' !! (PyStr.join cwd "corrs.csv") = Some (TextFile correlations).
Proof.
  intros Hsv Hidx. eexists. rewrite run_interface_split, Hsv.
  split; [by apply select_and_save_ok |]. simpl. split.
  - rewrite lookup_insert_ne by done. by rewrite lookup_insert_eq.
  - by rewrite lookup_insert_eq.
Qed.

Lemma score_all_each (st : state Image) (mask : Image) (target_vox : list float)
    (srcs : list string) (l : list float) :
  score_all st mask target_vox srcs = Ok l ->
  Forall2 (fun src r => score_candidate st mask target_vox src = Ok r) srcs l.
Proof.
  revert l. induction srcs as [| src rest IH]; intros l; simpl.
  - intros [= <-]. constructor.
  - destruct (score_candidate st mask target_vox src) as [r | e] eqn:Hr;
      [| done]. simpl.
    destruct (score_all st mask target_vox rest) as [l' | e]; [| done].
    simpl. intros [= <-]. constructor; [done | by apply IH].
Qed.

Lemma score_vector_each (inputs : Inputs) (st : state Image)
    (correlations : list float) :
  score_vector inputs st = Ok correlations ->
  exists t a,
    fs st !! target inputs = Some (NiftiFile t) /\
    apply_mask t (binarize_img t) = Ok a /\
    Forall2 (fun src r =>
               score_candidate st (binarize_img t) (ravel a) src = Ok r)
            (sources inputs) correlations.
Proof.
  unfold score_vector.
  destruct (fs st !! target inputs) as [[t | rows] |]; try done.
  destruct (apply_mask t (binarize_img t)) as [a | e] eqn:Ha; [| done].
  simpl. intros Hall. exists t, a. by split_and?; [| | apply score_all_each].
Qed.

Lemma score_candidate_from_pearsonr (st : state Image) (mask : Image)
    (target_vox : list float) (src : string) (r : float) :
  score_candidate st mask target_vox src = Ok r ->
  exists y, pearsonr target_vox y = Ok r.
Proof.
  unfold score_candidate.
  destruct (fs st !! src) as [[img | rows] |]; try done.
  destruct (apply_mask img mask) as [a | e]; [| done]. simpl. eauto.
Qed.

Lemma correlation_not_neg_inf (r : float) :
  is_correlation r = true -> isnan r = false -> r <> NegInf.
Proof. by destruct r. Qed.

(** With a score that is not NaN, the run returns, and the index it
    stores is the first one that attains the largest non-NaN score. *)
Lemma run_selects_first_max (inputs : Inputs) (cwd : string)
    (st : state Image) (corrs : list float) :
  pearsonr_in_range ->
  score_vector inputs st = Ok corrs ->
  (exists j s, corrs !! j = Some s /\ isnan s = false) ->
  exists i si st',
    run_interface inputs cwd st = (Ok (), st') /\
    results st' !! "source_index" = Some (wrap_index (output_list inputs) i) /\
    corrs !! i = Some si /\ isnan si = false /\
    (forall j sj, corrs !! j = Some sj -> isnan sj = false ->
                  Float.leb sj si = true) /\
    (forall j sj, (j < i)%nat -> corrs !! j = Some sj -> isnan sj = false ->
                  Float.leb si sj = false).
Proof.
  intros Hrange Hsv (j & s & Hj & Hs).
  destruct (score_vector_each _ _ _ Hsv) as (t & a & _ & _ & Hall).
  assert (Hcorr : is_correlation s = true).
  { destruct (Forall2_lookup_r _ _ _ _ _ Hall Hj) as (src & _ & Hsrc).
    apply score_candidate_from_pearsonr in Hsrc as [y Hy].
    by eapply Hrange. }
  destruct (nanargmax_first_max corrs) as (i & si & Hi & Hsi & Hnan & Hmax & Hfst).
  { exists j, s. split_and?; [done | done |]. by apply correlation_not_neg_inf. }
  destruct (run_interface_ok inputs cwd st corrs i Hsv Hi) as (st' & Hrun & Hres & _).
  by exists i, si, st'.
Qed.

End SelectCoregFacts.

(** ** select_coreg.py: the claims *)

Section SelectCoregClaims.
Import SelectCoreg.
Context {lib : Imaging}.




(** C2, as the code has it: when there is a candidate and every score is
    NaN, [np.nanargmax] raises its [ValueError] at line 49, before the
    score file is written at line 55; the store is left as it was. *)
Theorem all_nan_scores_raise_before_saving (inputs : Inputs) (cwd : string)
    (st : state Image) (corrs : list float) :
  fst (correlations_of inputs st) = Ok corrs ->
  corrs <> [] ->
  Forall (fun s => isnan s = true) corrs ->
  run_interface inputs cwd st =
  (Raise (ValueError "All-NaN slice encountered"), st).
Proof.
  intros Hcorrs Hne Hall. rewrite correlations_of_pure in Hcorrs.
  simpl in Hcorrs. rewrite run_interface_split, Hcorrs.
  apply select_and_save_raise. by apply nanargmax_all_nan.
Qed.


Lemma concat_empty_rows (rows : list (list float)) (n : nat) :
  Forall (fun row => length row = n) rows -> n = 0%nat -> concat rows = [].
Proof.
  intros Hrows ->. induction Hrows as [| row rows Hrow _ IH]; [done |].
  simpl. rewrite IH. by destruct row.
Qed.

Lemma no_score_on_empty_sample (st : state Image) (mask : Image)
    (src : string) :
  pearsonr_needs_two_samples ->
  is_ok (score_candidate st mask [] src) = false.
Proof.
  intros Htwo. unfold score_candidate.
  destruct (fs st !! src) as [[img | rows] |]; try done.
  destruct (apply_mask img mask) as [b | e]; [| done].
  simpl. apply Htwo. simpl. lia.
Qed.


Lemma score_all_same_files (st1 st2 : state Image) (mask : Image)
    (target_vox : list float) (srcs : list string) :
  (forall src, src ∈ srcs -> fs st1 !! src = fs st2 !! src) ->
  score_all st1 mask target_vox srcs = score_all st2 mask target_vox srcs.
Proof.
  induction srcs as [| src rest IH]; intros Hsame; [done |].
  simpl. unfold score_candidate.
  rewrite (Hsame src) by apply list_elem_of_here.
  rewrite IH; [done |]. intros src' Hin. apply Hsame. by apply list_elem_of_further.
Qed.

(** The score vector depends on the store through the target file and the
    candidate files only. *)
Lemma score_vector_same_files (inputs : Inputs) (st1 st2 : state Image) :
  fs st1 !! target inputs = fs st2 !! target inputs ->
  (forall src, src ∈ sources inputs -> fs st1 !! src = fs st2 !! src) ->
  score_vector inputs st1 = score_vector inputs st2.
Proof.
  intros Htarget Hsources. unfold score_vector. rewrite Htarget.
  destruct (fs st2 !! target inputs) as [[t | rows] |]; try done.
  destruct (apply_mask t (binarize_img t)) as [a | e]; [| done]. simpl.
  by apply score_all_same_files.
Qed.

(** C6: two invocations with the same inputs, on stores that hold the same
    target and candidate files, compute the same score vector, end the
    same way (both return, or both raise the same exception), store the
    same index and write the same rows to their score files.  The working
    directories, the earlier contents of [_results] and all other files
    may differ. *)
Theorem run_interface_is_deterministic (inputs : Inputs) (cwd1 cwd2 : string)
    (st1 st2 : state Image) :
  fs st1 !! target inputs = fs st2 !! target inputs ->
  (forall src, src ∈ sources inputs -> fs st1 !! src = fs st2 !! src) ->
  fst (correlations_of inputs st1) = fst (correlations_of inputs st2) /\
  fst (run_interface inputs cwd1 st1) = fst (run_interface inputs cwd2 st2) /\
  (forall st1' st2',
     run_interface inputs cwd1 st1 = (Ok (), st1') ->
     run_interface inputs cwd2 st2 = (Ok (), st2') ->
     exists idx corrs,
       results st1' !! "source_index" = Some idx /\
       results st2' !! "source_index" = Some idx /\
       fst (correlations_of inputs st1) = Ok corrs /\
       fs st1' !! (PyStr.join cwd1 "corrs.csv") = Some (TextFile corrs) /\
       fs st2' !! (PyStr.join cwd2 "corrs.csv") = Some (TextFile corrs)).
Proof.
  intros Htarget Hsources.
  pose proof (score_vector_same_files inputs st1 st2 Htarget Hsources) as Hsv.
  rewrite !correlations_of_pure, !run_interface_split, <- Hsv. simpl.
  destruct (score_vector inputs st1) as [corrs | e]; [| done].
  destruct (nanargmax corrs) as [i | e] eqn:Hi.
  - rewrite !(select_and_save_ok _ _ _ _ i Hi). split_and?; [done | done |].
    intros st1' st2' [= <-] [= <-].
    exists (wrap_index (output_list inputs) i), corrs. simpl.
    rewrite !lookup_insert_eq.
    rewrite !(lookup_insert_ne _ "correlations" "source_index") by done.
    by rewrite !lookup_insert_eq.
  - rewrite !(select_and_save_raise _ _ _ _ e Hi). done.
Qed.

(** C8: the score at index [i] is a function of the target image and of
    the image of candidate [i] alone.  Two runs that read the same target
    image, and the same image for the candidate at index [i] of the one
    and index [k] of the other, give that candidate the same score,
    whatever the other candidates are and wherever they stand. *)
Theorem candidate_score_ignores_other_candidates (inputs1 inputs2 : Inputs)
    (st1 st2 : state Image) (i k : nat) (src1 src2 : string)
    (corrs1 corrs2 : list float) :
  fs st1 !! target inputs1 = fs st2 !! target inputs2 ->
  sources inputs1 !! i = Some src1 ->
  sources inputs2 !! k = Some src2 ->
  fs st1 !! src1 = fs st2 !! src2 ->
  fst (correlations_of inputs1 st1) = Ok corrs1 ->
  fst (correlations_of inputs2 st2) = Ok corrs2 ->
  exists r, corrs1 !! i = Some r /\ corrs2 !! k = Some r.
Proof.
  intros Htarget Hi Hk Hsrc Hc1 Hc2.
  rewrite correlations_of_pure in Hc1, Hc2. simpl in Hc1, Hc2.
  destruct (score_vector_each _ _ _ Hc1) as (t1 & a1 & Ht1 & Ha1 & Hall1).
  destruct (score_vector_each _ _ _ Hc2) as (t2 & a2 & Ht2 & Ha2 & Hall2).
  rewrite Htarget, Ht2 in Ht1. injection Ht1 as <-.
  rewrite Ha2 in Ha1. injection Ha1 as <-.
  destruct (Forall2_lookup_l _ _ _ _ _ Hall1 Hi) as (r1 & Hr1 & Hs1).
  destruct (Forall2_lookup_l _ _ _ _ _ Hall2 Hk) as (r2 & Hr2 & Hs2).
  unfold score_candidate in Hs1, Hs2. rewrite Hsrc in Hs1.
  destruct (fs st2 !! src2) as [[img | rows] |]; try done.
  rewrite Hs1 in Hs2. injection Hs2 as <-. by exists r1.
Qed.

End SelectCoregClaims.

(** ** utils.py *)

Section UtilsClaims.
Import Utils.
Context {env : JsonFiles}.

(** C9: given a dict, [check_params] raises [KeyError] exactly when
    [required] is not a subset of the dict's keys, and otherwise returns
    the dict it was given. *)
Theorem check_params_dict_checks_required_keys (d : gmap string JValue)
    (required : gset string) :
  ((exists msg, check_params (ParamsDict d) required = Raise (KeyError msg))
   <-> ¬ required ⊆ dom d) /\
  (is_ok (check_params (ParamsDict d) required) = false
   <-> ¬ required ⊆ dom d) /\
  (required ⊆ dom d <-> check_params (ParamsDict d) required = Ok d).
Proof.
  unfold check_params. simpl. case_bool_decide as Hsub; simpl.
  - split_and?; split; try done. by intros [msg ?].
  - split_and?; split; try done. by eauto.
Qed.

(** A parameter file is checked like the dict that [json.load] reads
    from it. *)
Lemma check_params_path_as_loaded (path : string) (d : gmap string JValue)
    (required : gset string) :
  json_load path = Ok d ->
  check_params (ParamsPath path) required = check_params (ParamsDict d) required.
Proof. intros Hload. unfold check_params. by rewrite Hload. Qed.

End UtilsClaims.

(** ** nmt.py: HemisphereMask *)

Section NmtFacts.
Import Nmt.

(** The right mask is the input with the slabs of index below [n]
    multiplied by zero; the left mask is the input with the slabs from
    index [n] on multiplied by zero. *)
Lemma zero_front_lookup (n i : nat) (a : list (list (list float))) :
  zero_front n a !! i =
  if decide (i < n)%nat then imul_zero <$> a !! i else a !! i.
Proof.
  unfold zero_front. case_decide as Hi.
  - destruct (decide (i < length a)%nat) as [Hlen | Hlen].
    + rewrite lookup_app_l by (rewrite length_map, length_take; lia).
      change (map imul_zero (take n a)) with (imul_zero <$> take n a).
      by rewrite list_lookup_fmap, lookup_take_lt.
    + rewrite !lookup_ge_None_2; [done | lia |].
      rewrite length_app, length_map, length_take, length_drop. lia.
  - rewrite lookup_app_r by (rewrite length_map, length_take; lia).
    rewrite length_map, length_take, lookup_drop.
    destruct (decide (n <= length a)%nat).
    + f_equal. lia.
    + rewrite !lookup_ge_None_2; [done | lia | lia].
Qed.

Lemma zero_back_lookup (n i : nat) (a : list (list (list float))) :
  zero_back n a !! i =
  if decide (i < n)%nat then a !! i else imul_zero <$> a !! i.
Proof.
  unfold zero_back. case_decide as Hi.
  - destruct (decide (i < length a)%nat) as [Hlen | Hlen].
    + rewrite lookup_app_l by (rewrite length_take; lia).
      by rewrite lookup_take_lt.
    + rewrite !lookup_ge_None_2; [done | lia |].
      rewrite length_app, length_map, length_take, length_drop. lia.
  - rewrite lookup_app_r by (rewrite length_take; lia).
    change (map imul_zero (drop n a)) with (imul_zero <$> drop n a).
    rewrite list_lookup_fmap, length_take, lookup_drop.
    destruct (decide (n <= length a)%nat).
    + do 2 f_equal. lia.
    + rewrite !lookup_ge_None_2; [done | lia | lia].
Qed.

(** A finite voxel multiplied by zero compares equal to zero; a NaN or an
    infinite voxel does not. *)
Lemma mul_zero_finite (x : float) :
  is_finite x = true -> Float.eqb (Float.mul x (Fin 0)) zero = true.
Proof.
  destruct x as [| | q |]; try done. intros _.
  unfold Float.eqb, zero. simpl.
  assert (Heq : (q * 0 == 0)%Q) by ring.
  apply andb_true_iff. split; apply Qle_bool_iff; rewrite Heq; apply Qle_refl.
Qed.

End NmtFacts.

(** ** The instance satisfies what is assumed of the libraries *)

Lemma grid_pearson_in_range : @SelectCoreg.pearsonr_in_range Grid.lib.
Proof.
  intros x y r. simpl. unfold Grid.pearson.
  repeat case_match; intros [= <-]; try done.
  unfold is_correlation, Grid.clip.
  apply andb_true_iff. split; apply Qle_bool_iff; rewrite Qred_correct.
  - apply Q.le_max_l.
  - apply Q.max_lub; [done | apply Q.le_min_l].
Qed.

Lemma grid_pearson_needs_two_samples :
  @SelectCoreg.pearsonr_needs_two_samples Grid.lib.
Proof.
  intros x y Hlen. simpl. unfold Grid.pearson.
  destruct (negb (length x =? length y)%nat); [done |].
  apply Nat.ltb_lt in Hlen. by rewrite Hlen.
Qed.

Lemma grid_select_length (v m : list float) :
  length v = length m -> length (Grid.select v m) = Grid.count_true m.
Proof.
  revert m. unfold Grid.select, Grid.count_true.
  induction v as [| x v IH]; intros [| y m] Hlen; simpl in *; try done.
  destruct (Grid.nonzero y); simpl; rewrite IH; by try lia.
Qed.

Lemma grid_mask_rows_fit : @SelectCoreg.mask_rows_fit Grid.lib.
Proof.
  intros img m rows. simpl. unfold Grid.mask_voxels.
  destruct (length img =? length m)%nat eqn:Hlen; [| done].
  intros [= <-]. apply Nat.eqb_eq in Hlen.
  constructor; [by apply grid_select_length | constructor].
Qed.

(** ** The claims on the instance *)




Lemma all_nan_scores_raise_before_saving_witness :
  SelectCoreg.run_interface (lib := Grid.lib) Grid.two_flat "/work" Grid.st0 =
  (Raise (ValueError "All-NaN slice encountered"), Grid.st0).
Proof.
  apply (all_nan_scores_raise_before_saving (lib := Grid.lib)
           Grid.two_flat "/work" Grid.st0 [NaN; NaN]).
  - vm_compute. reflexivity.
  - discriminate.
  - repeat constructor.
Defined.

(** C2 as the spec states it fails on two constant candidates: every
    score is NaN, the run raises, and afterwards the store is the one the
    run started from, in which there is no score file. *)
Lemma all_nan_run_writes_no_score_file :
  fst (SelectCoreg.correlations_of (lib := Grid.lib) Grid.two_flat Grid.st0) =
    Ok [NaN; NaN] /\
  SelectCoreg.run_interface (lib := Grid.lib) Grid.two_flat "/work" Grid.st0 =
    (Raise (ValueError "All-NaN slice encountered"), Grid.st0) /\
  fs Grid.st0 !! (PyStr.join "/work" "corrs.csv") = None.
Proof. vm_compute. by split_and?. Qed.


Lemma run_interface_is_deterministic_witness :
  fst (SelectCoreg.correlations_of (lib := Grid.lib)
         Grid.three_candidates Grid.st0) =
  fst (SelectCoreg.correlations_of (lib := Grid.lib)
         Grid.three_candidates Grid.st1) /\
  fst (SelectCoreg.run_interface (lib := Grid.lib)
         Grid.three_candidates "/work" Grid.st0) =
  fst (SelectCoreg.run_interface (lib := Grid.lib)
         Grid.three_candidates "/scratch/again" Grid.st1) /\
  (forall st1' st2',
     SelectCoreg.run_interface (lib := Grid.lib)
       Grid.three_candidates "/work" Grid.st0 = (Ok (), st1') ->
     SelectCoreg.run_interface (lib := Grid.lib)
       Grid.three_candidates "/scratch/again" Grid.st1 = (Ok (), st2') ->
     exists idx corrs,
       results st1' !! "source_index" = Some idx /\
       results st2' !! "source_index" = Some idx /\
       fst (SelectCoreg.correlations_of (lib := Grid.lib)
              Grid.three_candidates Grid.st0) = Ok corrs /\
       fs st1' !! (PyStr.join "/work" "corrs.csv") = Some (TextFile corrs) /\
       fs st2' !! (PyStr.join "/scratch/again" "corrs.csv") =
         Some (TextFile corrs)).
Proof.
  apply (run_interface_is_deterministic (lib := Grid.lib)
           Grid.three_candidates "/work" "/scratch/again" Grid.st0 Grid.st1).
  - vm_compute. reflexivity.
  - intros src Hin. simpl in Hin.
    repeat (apply elem_of_cons in Hin as [-> | Hin]; [vm_compute; reflexivity |]).
    by apply elem_of_nil in Hin.
Defined.


Lemma candidate_score_ignores_other_candidates_witness :
  exists r, [Fin 1; Fin (-1); NaN] !! 0%nat = Some r /\
            [NaN; Fin (-1); Fin 1] !! 2%nat = Some r.
Proof.
  apply (candidate_score_ignores_other_candidates (lib := Grid.lib)
           Grid.three_candidates Grid.copy_last Grid.st0 Grid.st1 0 2
           "/data/copy.nii.gz" "/data/copy.nii.gz").
  all: vm_compute; reflexivity.
Defined.

(** C10 at the input [brain_mask = "/data/mask.nii"], a mask of 66 slabs
    of ones: [basename.replace(".nii.gz", ...)] leaves the name as it is,
    so both masks are written to [/work/mask.nii].  The left mask, written
    last, is what the file holds, and [right_mask] names that file. *)
Theorem hemisphere_masks_share_one_file_for_nii :
  let run := Nmt.run_interface (cast := Grid.float32_exact)
               "/data/mask.nii" "/work" (Grid.nmt_st "/data/mask.nii") in
  fst run = Ok () /\
  results (snd run) !! "right_mask" = Some (VStr "/work/mask.nii") /\
  results (snd run) !! "left_mask" = Some (VStr "/work/mask.nii") /\
  fs (snd run) !! "/work/mask.nii" =
    Some (NiftiFile {| Nmt.dataobj := Nmt.zero_back 64 (Grid.ones 66);
                       Nmt.affine := Grid.identity_affine |}) /\
  Nmt.zero_back 64 (Grid.ones 66) <> Nmt.zero_front 64 (Grid.ones 66).
Proof.
  intros run. split_and?; try (vm_compute; reflexivity).
  intros Heq. apply (f_equal (fun a => a !! 0%nat)) in Heq.
  vm_compute in Heq. discriminate Heq.
Qed.

(** The same mask under the name [mask.nii.gz] gives two files, each with
    its own mask. *)
Example hemisphere_masks_for_nii_gz :
  let run := Nmt.run_interface (cast := Grid.float32_exact)
               "/data/mask.nii.gz" "/work" (Grid.nmt_st "/data/mask.nii.gz") in
  fst run = Ok () /\
  results (snd run) !! "right_mask" = Some (VStr "/work/mask_right.nii.gz") /\
  results (snd run) !! "left_mask" = Some (VStr "/work/mask_left.nii.gz") /\
  fs (snd run) !! "/work/mask_right.nii.gz" =
    Some (NiftiFile {| Nmt.dataobj := Nmt.zero_front 64 (Grid.ones 66);
                       Nmt.affine := Grid.identity_affine |}) /\
  fs (snd run) !! "/work/mask_left.nii.gz" =
    Some (NiftiFile {| Nmt.dataobj := Nmt.zero_back 64 (Grid.ones 66);
                       Nmt.affine := Grid.identity_affine |}).
Proof. intros run. split_and?; vm_compute; reflexivity. Qed.

(** ** Evaluations *)

Example nanargmax_spec_scenario : nanargmax [Fin 1; Fin (1 # 3); NaN] = Ok 0%nat.
Proof. reflexivity. Qed.

Example nanargmax_skips_nan_and_keeps_first :
  nanargmax [NaN; Fin (1 # 2); Fin (2 # 4)] = Ok 1%nat.
Proof. reflexivity. Qed.

Example nanargmax_empty :
  nanargmax [] = Raise (ValueError "attempt to get argmax of an empty sequence").
Proof. reflexivity. Qed.

(** With [-inf] as the only score that is not NaN, the index returned is
    that of a NaN; a correlation coefficient is never [-inf]. *)
Example nanargmax_nan_before_neg_inf : nanargmax [NaN; NegInf] = Ok 0%nat.
Proof. reflexivity. Qed.

Example replace_nii_gz :
  PyStr.replace "mask.nii.gz" ".nii.gz" "_right.nii.gz" = "mask_right.nii.gz".
Proof. reflexivity. Qed.

Example replace_nii : PyStr.replace "mask.nii" ".nii.gz" "_right.nii.gz" = "mask.nii".
Proof. reflexivity. Qed.

Example basename_of_path : PyStr.basename "/data/nmt/mask.nii.gz" = "mask.nii.gz".
Proof. reflexivity. Qed.

Example join_cwd : PyStr.join "/work" "corrs.csv" = "/work/corrs.csv".
Proof. reflexivity. Qed.

Example scores_of_three_candidates :
  fst (SelectCoreg.correlations_of (lib := Grid.lib)
         Grid.three_candidates Grid.st0) = Ok [Fin 1; Fin (-1); NaN].
Proof. vm_compute. reflexivity. Qed.

Example run_on_three_candidates :
  let run := SelectCoreg.run_interface (lib := Grid.lib)
               Grid.three_candidates "/work" Grid.st0 in
  fst run = Ok () /\
  results (snd run) !! "source_index" = Some (VList [0%nat]) /\
  results (snd run) !! "correlations" = Some (VStr "/work/corrs.csv") /\
  fs (snd run) !! "/work/corrs.csv" = Some (TextFile [Fin 1; Fin (-1); NaN]).
Proof. intros run. split_and?; vm_compute; reflexivity. Qed.

Example run_on_empty_target :
  SelectCoreg.run_interface (lib := Grid.lib) Grid.empty_target "/work" Grid.st0 =
  (Raise (ValueError "x and y must have length at least 2."), Grid.st0).
Proof. vm_compute. reflexivity. Qed.

Example check_params_file :
  is_ok (Utils.check_params (env := Grid.json_env)
           (Utils.ParamsPath "params.json") {[ "coregistration_wf" ]}) = true.
Proof. vm_compute. reflexivity. Qed.

Example check_params_missing_key :
  Utils.check_params (env := Grid.json_env)
    (Utils.ParamsDict {[ "other" := "x" ]}) {[ "coregistration_wf" ]} =
  Raise (KeyError "Parameters must have keys: {...}").
Proof. vm_compute. reflexivity. Qed.

(** * Properties of the further code *)

(** ** Strings *)

Lemma app_cons (c : ascii) (s t : string) :
  String c s +:+ t = String c (s +:+ t).
Proof. reflexivity. Qed.

Lemma app_nil_l_str (s : string) : EmptyString +:+ s = s.
Proof. reflexivity. Qed.

Lemma app_nil_r_str (s : string) : s +:+ EmptyString = s.
Proof. induction s as [| c s IH]; [done |]. by rewrite app_cons, IH. Qed.

Lemma app_assoc_str (s t u : string) : (s +:+ t) +:+ u = s +:+ (t +:+ u).
Proof. induction s as [| c s IH]; [done |]. by rewrite !app_cons, IH. Qed.

Lemma app_length_str (s t : string) :
  String.length (s +:+ t) = (String.length s + String.length t)%nat.
Proof. induction s as [| c s IH]; [done |]. rewrite app_cons. simpl. by rewrite IH. Qed.

Lemma prefix_app (p rest : string) : String.prefix p (p +:+ rest) = true.
Proof.
  induction p as [| c p IH]; [by destruct rest |]. rewrite app_cons. simpl.
  by destruct (ascii_dec c c).
Qed.

(** *** str.replace *)

Lemma replace_from_skip (old new p rest : string) :
  PyStr.replace_from old new (String.length p) (p +:+ rest) =
  PyStr.replace_from old new 0 rest.
Proof.
  induction p as [| c p IH]; [reflexivity | exact IH].
Qed.

Lemma replace_from_not_found (old new s : string) (i : nat) :
  PyText.find_from old s i = None -> PyStr.replace_from old new 0 s = s.
Proof.
  revert i. induction s as [| c s IH]; intros i; [done |].
  unfold PyText.find_from; fold PyText.find_from.
  unfold PyStr.replace_from; fold PyStr.replace_from.
  destruct (String.prefix old (String c s)); [done |].
  intros Hfind. by rewrite (IH _ Hfind).
Qed.

(** A string in which [old] does not occur is left as it is. *)
Lemma replace_not_found (s old new : string) :
  PyText.find s old = None -> PyStr.replace s old new = s.
Proof. apply replace_from_not_found. Qed.

Lemma replace_from_first (old new stem rest : string) (i : nat) :
  old <> EmptyString ->
  PyText.find_from old (stem +:+ old +:+ rest) i = Some (i + String.length stem)%nat ->
  PyStr.replace_from old new 0 (stem +:+ old +:+ rest) =
  stem +:+ new +:+ PyStr.replace_from old new 0 rest.
Proof.
  intros Hold. revert i. induction stem as [| c stem IH]; intros i.
  - intros _. rewrite !app_nil_l_str.
    destruct old as [| c old]; [done |].
    rewrite app_cons.
    unfold PyStr.replace_from; fold PyStr.replace_from.
    rewrite <- app_cons, prefix_app. f_equal.
    replace (String.length (String c old) - 1)%nat with (String.length old)
      by (simpl; lia).
    apply replace_from_skip.
  - rewrite !app_cons.
    unfold PyText.find_from; fold PyText.find_from.
    unfold PyStr.replace_from; fold PyStr.replace_from.
    destruct (String.prefix old (String c (stem +:+ old +:+ rest))).
    + intros [= Hi]. simpl in Hi. lia.
    + intros Hfind. f_equal. apply (IH (S i)).
      rewrite Hfind. f_equal. simpl. lia.
Qed.

(** The first occurrence of [old] is replaced, and the replacement goes
    on behind it. *)
Lemma replace_first (old new stem rest : string) :
  old <> EmptyString ->
  PyText.find (stem +:+ old +:+ rest) old = Some (String.length stem) ->
  PyStr.replace (stem +:+ old +:+ rest) old new =
  stem +:+ new +:+ PyStr.replace rest old new.
Proof. intros Hold Hfind. by apply (replace_from_first old new stem rest 0). Qed.

Lemma replace_suffix (old new stem : string) :
  old <> EmptyString ->
  PyText.find (stem +:+ old) old = Some (String.length stem) ->
  PyStr.replace (stem +:+ old) old new = stem +:+ new.
Proof.
  intros Hold Hfind.
  pose proof (replace_first old new stem EmptyString Hold) as H.
  rewrite !app_nil_r_str in H. exact (H Hfind).
Qed.

(** *** os.path.basename and os.path.join *)

Lemma no_slash_app (s t : string) :
  PyText.no_slash (s +:+ t) = PyText.no_slash s && PyText.no_slash t.
Proof.
  induction s as [| c s IH]; [done |]. rewrite app_cons. simpl.
  by rewrite IH, andb_assoc.
Qed.

Lemma no_slash_not_absolute (s : string) :
  PyText.no_slash s = true -> String.prefix "/" s = false.
Proof.
  destruct s as [| c s]; [done |]. intros Hs.
  change (String.prefix "/" (String c s))
    with (if ascii_dec "/" c then String.prefix EmptyString s else false).
  destruct (ascii_dec "/" c) as [<- | ?]; [| done].
  by vm_compute in Hs.
Qed.

Lemma basename_from_no_slash (acc p : string) :
  PyText.no_slash acc = true ->
  PyText.no_slash (PyStr.basename_from acc p) = true.
Proof.
  revert acc. induction p as [| c p IH]; intros acc Hacc; [done |].
  simpl. destruct (Ascii.eqb c "/") eqn:Hc.
  - by apply IH.
  - apply IH. rewrite no_slash_app, Hacc. simpl. by rewrite Hc.
Qed.

(** A base name has no slash in it. *)
Lemma basename_no_slash (p : string) : PyText.no_slash (PyStr.basename p) = true.
Proof. by apply basename_from_no_slash. Qed.

Lemma basename_from_plain (acc name : string) :
  PyText.no_slash name = true -> PyStr.basename_from acc name = acc +:+ name.
Proof.
  revert acc. induction name as [| c name IH]; intros acc.
  - intros _. simpl. by rewrite app_nil_r_str.
  - simpl. destruct (Ascii.eqb c "/"); [done |]. simpl. intros Hname.
    rewrite (IH _ Hname), app_assoc_str. done.
Qed.

Lemma basename_from_after_slash (acc x name : string) :
  PyStr.basename_from acc (x +:+ String "/" name) =
  PyStr.basename_from EmptyString name.
Proof.
  revert acc. induction x as [| c x IH]; intros acc.
  - reflexivity.
  - rewrite app_cons. simpl. by destruct (Ascii.eqb c "/").
Qed.

Lemma ends_with_slash_split (a : string) :
  PyStr.ends_with_slash a = true -> exists x, a = x +:+ "/".
Proof.
  induction a as [| c a IH]; [done |]. simpl. destruct a as [| c' a].
  - intros Hc. apply Ascii.eqb_eq in Hc as ->. by exists EmptyString.
  - intros Ha. destruct (IH Ha) as [x ->]. by exists (String c x).
Qed.

Lemma join_relative (cwd name : string) :
  String.prefix "/" name = false ->
  PyStr.join cwd name = PyText.join_prefix cwd +:+ name.
Proof.
  intros Hrel. unfold PyStr.join, PyText.join_prefix. rewrite Hrel.
  destruct ((String.length cwd =? 0)%nat || PyStr.ends_with_slash cwd);
    [done |]. by rewrite app_assoc_str.
Qed.

(** Two relative names are joined to the same path only if they are the
    same name. *)
Lemma join_inj (cwd a b : string) :
  String.prefix "/" a = false -> String.prefix "/" b = false ->
  PyStr.join cwd a = PyStr.join cwd b -> a = b.
Proof.
  intros Ha Hb. rewrite !join_relative by done.
  apply (inj (String.app _)).
Qed.

(** The base name of [os.path.join(cwd, name)] is [name], for a name
    without a slash. *)
Lemma basename_join (cwd name : string) :
  PyText.no_slash name = true -> PyStr.basename (PyStr.join cwd name) = name.
Proof.
  intros Hname. rewrite join_relative by by apply no_slash_not_absolute.
  unfold PyText.join_prefix, PyStr.basename.
  destruct (String.length cwd =? 0)%nat eqn:Hlen; simpl.
  - destruct cwd; [| done]. by rewrite app_nil_l_str, basename_from_plain.
  - destruct (PyStr.ends_with_slash cwd) eqn:Hend.
    + destruct (ends_with_slash_split _ Hend) as [x ->].
      rewrite app_assoc_str. change ("/" +:+ name) with (String "/" name).
      by rewrite basename_from_after_slash, basename_from_plain.
    + rewrite app_assoc_str. change ("/" +:+ name) with (String "/" name).
      by rewrite basename_from_after_slash, basename_from_plain.
Qed.

(** *** str.split and str.join *)

Lemma no_space_app (s t : string) :
  PyText.no_space (s +:+ t) = PyText.no_space s && PyText.no_space t.
Proof.
  induction s as [| c s IH]; [done |]. rewrite app_cons. simpl.
  by rewrite IH, andb_assoc.
Qed.

Lemma is_word_spec (w : string) :
  PyText.is_word w = true <-> w <> EmptyString /\ PyText.no_space w = true.
Proof.
  unfold PyText.is_word. destruct w as [| c w]; simpl.
  - split; [done | by intros [? _]].
  - split; [by intros Hw | by intros [_ Hw]].
Qed.

Lemma split_from_word (w cur rest : string) :
  PyText.no_space w = true ->
  PyText.split_from cur (w +:+ rest) = PyText.split_from (cur +:+ w) rest.
Proof.
  revert cur. induction w as [| c w IH]; intros cur.
  - intros _. by rewrite app_nil_l_str, app_nil_r_str.
  - rewrite app_cons. simpl. intros [Hc Hw]%andb_true_iff.
    apply negb_true_iff in Hc. rewrite Hc, (IH _ Hw), app_assoc_str. done.
Qed.

Lemma split_word (w : string) :
  PyText.is_word w = true -> PyText.split w = [w].
Proof.
  intros [Hne Hw]%is_word_spec. unfold PyText.split.
  rewrite <- (app_nil_r_str w) at 1. rewrite split_from_word by done.
  rewrite app_nil_l_str. simpl. by destruct w.
Qed.

Lemma split_word_space (w rest : string) :
  PyText.is_word w = true ->
  PyText.split (w +:+ " " +:+ rest) = w :: PyText.split rest.
Proof.
  intros [Hne Hw]%is_word_spec. unfold PyText.split.
  rewrite split_from_word by done. rewrite app_nil_l_str.
  change (" " +:+ rest) with (String " " rest). simpl. by destruct w.
Qed.

(** Splitting the words joined by single spaces gives the words back. *)
Lemma split_join (ws : list string) :
  Forall (fun w => PyText.is_word w = true) ws ->
  PyText.split (PyText.join_with " " ws) = ws.
Proof.
  induction 1 as [| w ws Hw Hws IH]; [done |].
  destruct ws as [| w' ws].
  - by apply split_word.
  - change (PyText.join_with " " (w :: w' :: ws))
      with (w +:+ " " +:+ PyText.join_with " " (w' :: ws)).
    by rewrite split_word_space, IH.
Qed.

Lemma split_from_words (s cur : string) :
  PyText.no_space cur = true ->
  Forall (fun w => PyText.is_word w = true) (PyText.split_from cur s).
Proof.
  revert cur. induction s as [| c s IH]; intros cur Hcur; simpl.
  - destruct (String.length cur =? 0)%nat eqn:Hlen; [constructor |].
    repeat constructor. unfold PyText.is_word. by rewrite Hlen, Hcur.
  - destruct (PyText.is_space c) eqn:Hc.
    + destruct (String.length cur =? 0)%nat eqn:Hlen; [by apply IH |].
      constructor; [| by apply IH].
      unfold PyText.is_word. by rewrite Hlen, Hcur.
    + apply IH. rewrite no_space_app, Hcur. simpl. by rewrite Hc.
Qed.

(** Whatever the string, the pieces [split] returns are words: none is
    empty and none holds whitespace. *)
Lemma split_words (s : string) :
  Forall (fun w => PyText.is_word w = true) (PyText.split s).
Proof. by apply split_from_words. Qed.

Lemma basename_from_no_space (acc p : string) :
  PyText.no_space acc = true -> PyText.no_space p = true ->
  PyText.no_space (PyStr.basename_from acc p) = true.
Proof.
  revert acc. induction p as [| c p IH]; intros acc Hacc; [done |].
  simpl. intros [Hc Hp]%andb_true_iff. destruct (Ascii.eqb c "/").
  - by apply IH.
  - apply IH; [| done]. rewrite no_space_app, Hacc. simpl. by rewrite Hc.
Qed.

Lemma replace_from_no_space (old new s : string) (k : nat) :
  PyText.no_space new = true -> PyText.no_space s = true ->
  PyText.no_space (PyStr.replace_from old new k s) = true.
Proof.
  intros Hnew. revert k. induction s as [| c s IH]; intros k; [done |].
  intros Hs. pose proof Hs as [Hc Hs']%andb_true_iff.
  unfold PyStr.replace_from; fold PyStr.replace_from.
  destruct k as [| k]; [| by apply IH].
  destruct (String.prefix old (String c s)).
  - rewrite no_space_app, Hnew. by apply IH.
  - simpl. rewrite Hc. by apply IH.
Qed.

Lemma replace_nonempty (s old new : string) :
  s <> EmptyString -> new <> EmptyString ->
  PyStr.replace s old new <> EmptyString.
Proof.
  intros Hs Hnew. destruct s as [| c s]; [done |].
  unfold PyStr.replace, PyStr.replace_from; fold PyStr.replace_from.
  destruct (String.prefix old (String c s)); [| done].
  destruct new; [done |]. by rewrite app_cons.
Qed.

(** ** Running tools *)

Section ProcFacts.
Context {os : Proc.OS}.

Lemma xbind_unfold {St A B} (m : MX St A) (f : A -> MX St B) (st : St) :
  (m ≫= f) st =
  match m st with
  | (Return a, st') => f a st'
  | (Throw e, st') => (Throw e, st')
  end.
Proof. reflexivity. Qed.

Lemma xret_unfold {St A} (x : A) (st : St) :
  (mret x : MX St A) st = (Return x, st).
Proof. reflexivity. Qed.

Lemma subprocess_run_returns (argv : list string) (st : Proc.session)
    (w : Proc.World) :
  Proc.run_program argv (Proc.world st) = Return w ->
  Proc.subprocess_run argv st =
  (Return (),
   Proc.Session w (Proc.trace st ++ [Proc.Exec argv]) (Proc.outputs st)).
Proof.
  intros Hrun. unfold Proc.subprocess_run, Proc.record, update, Proc.on_world.
  rewrite xbind_unfold. simpl. by rewrite Hrun.
Qed.

Lemma subprocess_run_throws (argv : list string) (st : Proc.session) (e : exc) :
  Proc.run_program argv (Proc.world st) = Throw e ->
  Proc.subprocess_run argv st =
  (Throw e,
   Proc.Session (Proc.world st) (Proc.trace st ++ [Proc.Exec argv])
     (Proc.outputs st)).
Proof.
  intros Hrun. unfold Proc.subprocess_run, Proc.record, update, Proc.on_world.
  rewrite xbind_unfold. simpl. by rewrite Hrun.
Qed.

End ProcFacts.

(** ** gradunwarp.py *)

Section GradUnwarpFacts.
Import GradUnwarp.
Context {os : Proc.OS}.

Lemma out_file_name_is_word (in_file : string) :
  PyText.is_word in_file = true ->
  PyStr.basename in_file <> EmptyString ->
  PyText.is_word (out_file_name in_file) = true.
Proof.
  intros [_ Hin]%is_word_spec Hbase. apply is_word_spec. split.
  - by apply replace_nonempty.
  - apply replace_from_no_space; [done |].
    by apply basename_from_no_space.
Qed.

(** The arguments of the unwarping tool, when the paths are words. *)
Lemma command_split (in_file coeffs : string) :
  PyText.is_word in_file = true ->
  PyText.is_word coeffs = true ->
  PyStr.basename in_file <> EmptyString ->
  PyText.split (command in_file coeffs) =
  ["gradient_unwarp.py"; in_file; out_file_name in_file; "siemens"; "-g";
   coeffs; "-n"].
Proof.
  intros Hin Hco Hbase.
  change (command in_file coeffs)
    with (PyText.join_with " "
            ["gradient_unwarp.py"; in_file; out_file_name in_file; "siemens";
             "-g"; coeffs; "-n"]).
  apply split_join.
  repeat constructor; try done. by apply out_file_name_is_word.
Qed.


(** X2: an input whose base name does not contain [.nii.gz] (a plain
    [.nii] file, say) keeps its name: the tool is told to write to the
    input's own base name, and for an input that lies in the working
    directory the reported [out_file] is the input path itself. *)
Theorem gradunwarp_output_is_input_without_nii_gz (name coeffs cwd : string)
    (st st' : Proc.session) :
  PyText.no_slash name = true ->
  PyText.find name ".nii.gz" = None ->
  run_interface (PyStr.join cwd name) coeffs cwd st = (Return (), st') ->
  out_file_name (PyStr.join cwd name) = name /\
  Proc.outputs st' !! "out_file" = Some (VStr (PyStr.join cwd name)).
Proof.
  intros Hname Hfind Hrun.
  assert (Hout : out_file_name (PyStr.join cwd name) = name).
  { unfold out_file_name. rewrite basename_join by done.
    by apply replace_not_found. }
  split; [done |].
  unfold run_interface in Hrun. rewrite xbind_unfold in Hrun.
  destruct (Proc.subprocess_run _ st) as [[[] | e] st1]; [| done].
  injection Hrun as <-. simpl. rewrite Hout.
  rewrite lookup_insert_ne by done. by rewrite lookup_insert_eq.
Qed.

(** X3: an input named [stem.nii.gz], with no earlier [.nii.gz] in the
    name, gives the output name [stem_gdc.nii.gz]; in the working
    directory that is a path other than the input's. *)
Theorem gradunwarp_output_for_nii_gz (stem coeffs cwd : string)
    (st st' : Proc.session) :
  PyText.no_slash stem = true ->
  PyText.find (stem +:+ ".nii.gz") ".nii.gz" = Some (String.length stem) ->
  run_interface (PyStr.join cwd (stem +:+ ".nii.gz")) coeffs cwd st =
    (Return (), st') ->
  Proc.outputs st' !! "out_file" =
    Some (VStr (PyStr.join cwd (stem +:+ "_gdc.nii.gz"))) /\
  PyStr.join cwd (stem +:+ "_gdc.nii.gz") <>
    PyStr.join cwd (stem +:+ ".nii.gz").
Proof.
  intros Hstem Hfind Hrun.
  assert (Hname : PyText.no_slash (stem +:+ ".nii.gz") = true).
  { by rewrite no_slash_app, Hstem. }
  assert (Hout : out_file_name (PyStr.join cwd (stem +:+ ".nii.gz")) =
                 stem +:+ "_gdc.nii.gz").
  { unfold out_file_name. rewrite basename_join by done.
    by apply replace_suffix. }
  split.
  - unfold run_interface in Hrun. rewrite xbind_unfold in Hrun.
    destruct (Proc.subprocess_run _ st) as [[[] | e] st1]; [| done].
    injection Hrun as <-. simpl. rewrite Hout.
    rewrite lookup_insert_ne by done. by rewrite lookup_insert_eq.
  - intros Heq. apply join_inj in Heq.
    + by apply (inj (String.app stem)) in Heq.
    + apply no_slash_not_absolute. by rewrite no_slash_app, Hstem.
    + by apply no_slash_not_absolute.
Qed.

End GradUnwarpFacts.

(** *** At concrete inputs *)


Lemma gradunwarp_output_is_input_without_nii_gz_witness :
  let run := GradUnwarp.run_interface (os := Host.os) "/work/bold.nii"
               "/opt/coeff.grad" "/work" Host.fresh in
  fst run = Return () /\
  GradUnwarp.out_file_name "/work/bold.nii" = "bold.nii" /\
  Proc.outputs (snd run) !! "out_file" = Some (VStr "/work/bold.nii").
Proof.
  intros run. split; [by vm_compute |].
  apply (gradunwarp_output_is_input_without_nii_gz (os := Host.os)
           "bold.nii" "/opt/coeff.grad" "/work" Host.fresh (snd run)).
  - reflexivity.
  - reflexivity.
  - by vm_compute.
Defined.

Lemma gradunwarp_output_for_nii_gz_witness :
  let run := GradUnwarp.run_interface (os := Host.os) "/work/bold.nii.gz"
               "/opt/coeff.grad" "/work" Host.fresh in
  fst run = Return () /\
  Proc.outputs (snd run) !! "out_file" = Some (VStr "/work/bold_gdc.nii.gz") /\
  "/work/bold_gdc.nii.gz" <> "/work/bold.nii.gz".
Proof.
  intros run. split; [by vm_compute |].
  apply (gradunwarp_output_for_nii_gz (os := Host.os)
           "bold" "/opt/coeff.grad" "/work" Host.fresh (snd run)).
  - reflexivity.
  - reflexivity.
  - by vm_compute.
Defined.

(** ** nmt.py: HemisphereMask, for every file name *)

Section HemisphereFacts.
Import Nmt NmtTools.
Context {cast : Float32}.

(** A mask that loads is split and saved: first the right mask, then the
    left one, each under its [out_path]. *)
Lemma hemisphere_run (brain_mask cwd : string) (st : state Nifti1Image)
    (img : Nifti1Image) :
  fs st !! brain_mask = Some (NiftiFile img) ->
  run_interface brain_mask cwd st =
  (Ok (),
   State
     (<[out_path brain_mask cwd "left" :=
          NiftiFile (saved img (zero_back 64 (get_fdata img)))]>
        (<[out_path brain_mask cwd "right" :=
             NiftiFile (saved img (zero_front 64 (get_fdata img)))]> (fs st)))
     (<["left_mask" := VStr (out_path brain_mask cwd "left")]>
        (<["right_mask" := VStr (out_path brain_mask cwd "right")]>
           (results st)))).
Proof.
  intros Himg. unfold run_interface, nib_load, reads.
  rewrite bind_unfold, Himg. reflexivity.
Qed.


(** X5: a mask file named [stem.nii.gz] (with no earlier [.nii.gz] in
    the name) gives two files, [cwd/stem_right.nii.gz] and
    [cwd/stem_left.nii.gz]: the first holds the data with the slabs of
    first-axis index below 64 multiplied by zero, the second the data
    with the slabs from 64 on multiplied by zero, both cast to float32
    and with the input's affine.  The two paths differ from each other
    and from the input path, so the input is not overwritten, and no
    other file changes. *)
Theorem hemisphere_masks_for_nii_gz_names (brain_mask cwd stem : string)
    (st : state Nifti1Image) (img : Nifti1Image) :
  fs st !! brain_mask = Some (NiftiFile img) ->
  PyStr.basename brain_mask = stem +:+ ".nii.gz" ->
  PyText.find (stem +:+ ".nii.gz") ".nii.gz" = Some (String.length stem) ->
  let right_out := PyStr.join cwd (stem +:+ "_right.nii.gz") in
  let left_out := PyStr.join cwd (stem +:+ "_left.nii.gz") in
  exists st',
    run_interface brain_mask cwd st = (Ok (), st') /\
    results st' !! "right_mask" = Some (VStr right_out) /\
    results st' !! "left_mask" = Some (VStr left_out) /\
    fs st' !! right_out =
      Some (NiftiFile (saved img (zero_front 64 (get_fdata img)))) /\
    fs st' !! left_out =
      Some (NiftiFile (saved img (zero_back 64 (get_fdata img)))) /\
    right_out <> left_out /\
    right_out <> brain_mask /\ left_out <> brain_mask /\
    (forall p, p <> right_out -> p <> left_out -> fs st' !! p = fs st !! p).
Proof.
  intros Himg Hbase Hfind right_out left_out.
  assert (Hstem : PyText.no_slash stem = true).
  { pose proof (basename_no_slash brain_mask) as Hns.
    rewrite Hbase, no_slash_app in Hns. by apply andb_true_iff in Hns as [? _]. }
  assert (Hrel : forall suffix, PyText.no_slash suffix = true ->
                   String.prefix "/" (stem +:+ suffix) = false).
  { intros suffix Hsuf. apply no_slash_not_absolute.
    by rewrite no_slash_app, Hstem. }
  assert (Hdiff : forall a b, PyText.no_slash a = true ->
                    PyText.no_slash b = true -> a <> b ->
                    PyStr.join cwd (stem +:+ a) <> PyStr.join cwd (stem +:+ b)).
  { intros a b Ha Hb Hab Heq. apply join_inj in Heq; [| by apply Hrel ..].
    by apply (inj (String.app stem)) in Heq. }
  assert (Hinput : forall a, PyText.no_slash a = true -> a <> ".nii.gz" ->
                     PyStr.join cwd (stem +:+ a) <> brain_mask).
  { intros a Ha Hne Heq. apply (f_equal PyStr.basename) in Heq.
    rewrite basename_join, Hbase in Heq by by rewrite no_slash_app, Hstem.
    by apply (inj (String.app stem)) in Heq. }
  assert (Hright : out_path brain_mask cwd "right" = right_out).
  { unfold out_path. rewrite Hbase. by rewrite replace_suffix. }
  assert (Hleft : out_path brain_mask cwd "left" = left_out).
  { unfold out_path. rewrite Hbase. by rewrite replace_suffix. }
  assert (Hrl : right_out <> left_out) by by apply Hdiff.
  eexists. split; [by apply hemisphere_run |].
  rewrite Hright, Hleft. simpl. split_and?.
  - rewrite lookup_insert_ne by done. by rewrite lookup_insert_eq.
  - by rewrite lookup_insert_eq.
  - rewrite lookup_insert_ne by done. by rewrite lookup_insert_eq.
  - by rewrite lookup_insert_eq.
  - done.
  - by apply Hinput.
  - by apply Hinput.
  - intros p Hp1 Hp2. by rewrite !lookup_insert_ne.
Qed.

(** X6: the two arrays have the input's length along the first axis; at
    an index below 64 the right array holds the input's slab multiplied
    by zero and the left array the slab itself, and from 64 on it is the
    other way round.  An input with at most 64 slabs is therefore its own
    left mask, and its right mask is multiplied by zero throughout. *)
Theorem hemisphere_arrays_split_at_64 (a : list (list (list float))) :
  length (zero_front 64 a) = length a /\
  length (zero_back 64 a) = length a /\
  (forall i slab, a !! i = Some slab ->
     (i < 64)%nat ->
     zero_front 64 a !! i = Some (imul_zero slab) /\
     zero_back 64 a !! i = Some slab) /\
  (forall i slab, a !! i = Some slab ->
     (64 <= i)%nat ->
     zero_front 64 a !! i = Some slab /\
     zero_back 64 a !! i = Some (imul_zero slab)) /\
  ((length a <= 64)%nat ->
     zero_back 64 a = a /\ zero_front 64 a = map imul_zero a).
Proof.
  split_and?.
  - unfold zero_front. rewrite length_app, length_map, length_take, length_drop. lia.
  - unfold zero_back. rewrite length_app, length_map, length_take, length_drop. lia.
  - intros i slab Hi Hlt. rewrite zero_front_lookup, zero_back_lookup.
    rewrite !decide_True by done. by rewrite Hi.
  - intros i slab Hi Hge. rewrite zero_front_lookup, zero_back_lookup.
    rewrite !decide_False by lia. by rewrite Hi.
  - intros Hlen. unfold zero_back, zero_front.
    rewrite take_ge, drop_ge by done. simpl. by rewrite !app_nil_r.
Qed.

(** X7: the masks are made by multiplying, not by assigning.  In a slab
    that was multiplied by zero, the voxel at a place where the input
    holds a finite number compares equal to zero; where the input holds
    NaN or an infinity, the voxel is NaN. *)
Theorem zeroed_voxel_is_zero_iff_finite (slab : list (list float))
    (row : list float) (j k : nat) (x : float) :
  slab !! j = Some row -> row !! k = Some x ->
  exists y,
    imul_zero slab !! j ≫= (.!! k) = Some y /\
    Float.eqb y zero = is_finite x /\
    (is_finite x = false -> y = NaN).
Proof.
  intros Hrow Hx. exists (Float.mul x (Fin 0)). split_and?.
  - unfold imul_zero. rewrite list_lookup_fmap, Hrow. simpl.
    by rewrite list_lookup_fmap, Hx.
  - destruct x as [| | q |]; try done. by apply mul_zero_finite.
  - by destruct x.
Qed.

End HemisphereFacts.

(** *** At concrete inputs *)


Lemma hemisphere_masks_for_nii_gz_names_witness :
  exists st',
    Nmt.run_interface (cast := Grid.float32_exact) "/data/mask.nii.gz" "/work"
      (Grid.nmt_st "/data/mask.nii.gz") = (Ok (), st') /\
    results st' !! "right_mask" = Some (VStr "/work/mask_right.nii.gz") /\
    results st' !! "left_mask" = Some (VStr "/work/mask_left.nii.gz") /\
    fs st' !! "/work/mask_right.nii.gz" =
      Some (NiftiFile
              (NmtTools.saved (cast := Grid.float32_exact) Grid.mask66
                 (Nmt.zero_front 64 (Nmt.get_fdata Grid.mask66)))) /\
    fs st' !! "/work/mask_left.nii.gz" =
      Some (NiftiFile
              (NmtTools.saved (cast := Grid.float32_exact) Grid.mask66
                 (Nmt.zero_back 64 (Nmt.get_fdata Grid.mask66)))) /\
    "/work/mask_right.nii.gz" <> "/work/mask_left.nii.gz" /\
    "/work/mask_right.nii.gz" <> "/data/mask.nii.gz" /\
    "/work/mask_left.nii.gz" <> "/data/mask.nii.gz" /\
    (forall p, p <> "/work/mask_right.nii.gz" ->
       p <> "/work/mask_left.nii.gz" ->
       fs st' !! p = fs (Grid.nmt_st "/data/mask.nii.gz") !! p).
Proof.
  apply (hemisphere_masks_for_nii_gz_names (cast := Grid.float32_exact)
           "/data/mask.nii.gz" "/work" "mask" (Grid.nmt_st "/data/mask.nii.gz")
           Grid.mask66).
  - by vm_compute.
  - reflexivity.
  - reflexivity.
Defined.

Lemma hemisphere_arrays_split_at_64_witness :
  length (Nmt.zero_front 64 (Grid.ones 66)) = 66%nat /\
  Nmt.zero_front 64 (Grid.ones 66) !! 63%nat = Some (Nmt.imul_zero [[one]]) /\
  Nmt.zero_back 64 (Grid.ones 66) !! 63%nat = Some [[one]] /\
  Nmt.zero_front 64 (Grid.ones 66) !! 64%nat = Some [[one]] /\
  Nmt.zero_back 64 (Grid.ones 66) !! 64%nat = Some (Nmt.imul_zero [[one]]) /\
  Nmt.zero_back 64 (Grid.ones 3) = Grid.ones 3.
Proof.
  destruct (hemisphere_arrays_split_at_64 (Grid.ones 66))
    as (Hlen & _ & Hlow & Hhigh & _).
  destruct (hemisphere_arrays_split_at_64 (Grid.ones 3))
    as (_ & _ & _ & _ & Hshort).
  destruct (Hlow 63%nat [[one]] eq_refl ltac:(lia)) as [Hr63 Hl63].
  destruct (Hhigh 64%nat [[one]] eq_refl ltac:(lia)) as [Hr64 Hl64].
  destruct (Hshort ltac:(simpl; lia)) as [Hsame _].
  split_and?; try done.
Defined.

Lemma zeroed_voxel_is_zero_iff_finite_witness :
  exists y,
    Nmt.imul_zero [[Fin 2; NaN]] !! 0%nat ≫= (.!! 1%nat) = Some y /\
    Float.eqb y zero = is_finite NaN /\
    (is_finite NaN = false -> y = NaN).
Proof.
  apply (zeroed_voxel_is_zero_iff_finite [[Fin 2; NaN]] [Fin 2; NaN]
           0%nat 1%nat NaN); reflexivity.
Defined.

(** ** nmt.py: InstallNMT and FetchSegmentation *)

Section NmtToolsFacts.
Import NmtTools.
Context {os : Proc.OS}.

Lemma install_command_split (install_path : string) :
  PyText.is_word install_path = true ->
  PyText.split (install_command install_path) =
  ["@Install_NMT"; "-install_dir"; install_path; "-nmt_ver"; "2.0"; "-sym";
   "sym"; "-overwrite"].
Proof.
  intros Hp.
  change (install_command install_path)
    with (PyText.join_with " "
            ["@Install_NMT"; "-install_dir"; install_path; "-nmt_ver"; "2.0";
             "-sym"; "sym"; "-overwrite"]).
  apply split_join. by repeat constructor.
Qed.

Lemma wget_command_split (install_path i : string) :
  PyText.is_word install_path = true ->
  PyText.no_space i = true ->
  PyText.split (wget_command install_path i) =
  ["wget"; wget_url i; "-P"; install_path].
Proof.
  intros Hp Hi.
  assert (Hcmd : wget_command install_path i =
                 "wget" +:+ " " +:+ wget_url i +:+ " " +:+
                 PyText.join_with " " ["-P"; install_path]).
  { unfold wget_command, wget_url. rewrite !app_assoc_str. reflexivity. }
  assert (Hurl : PyText.is_word (wget_url i) = true).
  { apply is_word_spec. split; [done |].
    unfold wget_url. rewrite !no_space_app, Hi. reflexivity. }
  rewrite Hcmd, !split_word_space by done.
  rewrite split_join by by repeat constructor. done.
Qed.

(** X8: when [install_path] exists and [overwrite] is not set,
    [InstallNMT] asks nothing of the operating system: no directory is
    made and no installer is run, whatever the directory holds.  It
    reports [nmt_path] all the same. *)
Theorem install_nmt_skips_existing_path (install_path : string)
    (use_05mm : bool) (st : Proc.session) :
  Proc.path_exists (Proc.world st) install_path = true ->
  install_nmt install_path false use_05mm st =
  (Return (),
   Proc.Session (Proc.world st) (Proc.trace st)
     (<["nmt_path" := VStr (nmt_path install_path use_05mm)]>
        (Proc.outputs st))).
Proof.
  intros Hfound. unfold install_nmt, Proc.os_path_exists.
  rewrite xbind_unfold, Hfound. reflexivity.
Qed.



Lemma foreach_wget (p : string) (names : list string) (st : Proc.session) :
  (forall args w, returned (Proc.run_program ("wget" :: args) w) = true) ->
  PyText.is_word p = true ->
  Forall (fun i => PyText.no_space i = true) names ->
  exists w,
    foreach names
      (fun i => Proc.subprocess_run (PyText.split (wget_command p i))) st =
    (Return (),
     Proc.Session w
       (Proc.trace st ++
        map (fun i => Proc.Exec ["wget"; wget_url i; "-P"; p]) names)
       (Proc.outputs st)).
Proof.
  intros Hwget Hp Hnames. revert st.
  induction Hnames as [| i names Hi _ IH]; intros st.
  - exists (Proc.world st). simpl. rewrite app_nil_r. by destruct st.
  - simpl. rewrite xbind_unfold, (wget_command_split p i Hp Hi).
    specialize (Hwget [wget_url i; "-P"; p] (Proc.world st)).
    destruct (Proc.run_program _ (Proc.world st)) as [w1 |] eqn:Hrun;
      [| done].
    rewrite (subprocess_run_returns _ _ w1 Hrun).
    destruct (IH (Proc.Session w1
                    (Proc.trace st ++ [Proc.Exec ["wget"; wget_url i; "-P"; p]])
                    (Proc.outputs st))) as [w ->].
    exists w. simpl. by rewrite <- app_assoc.
Qed.


End NmtToolsFacts.

(** *** At concrete inputs *)

Lemma install_nmt_skips_existing_path_witness :
  NmtTools.install_nmt (os := Host.os) "/templates" false true
    (Host.having ["/templates"]) =
  (Return (),
   Proc.Session (os := Host.os) (list_to_set ["/templates"]) []
     (<["nmt_path" := VStr (NmtTools.nmt_path "/templates" true)]> ∅)).
Proof.
  apply (install_nmt_skips_existing_path (os := Host.os) "/templates" true
           (Host.having ["/templates"])).
  by vm_compute.
Defined.




(** ** utils.py and coregister.py: loading parameters *)

Section ParamsFacts.
Import Utils Coregister.
Context {env : JsonFiles}.

Lemma check_params_ok_inv (params : params_arg) (required : gset string) d :
  check_params params required = Ok d ->
  required ⊆ dom d /\
  match params with
  | ParamsDict given => d = given
  | ParamsPath path => json_load path = Ok d
  end.
Proof.
  unfold check_params. destruct params as [path | given]; simpl.
  - destruct (json_load path) as [d' | e]; [| done]. simpl.
    case_bool_decide; simpl; [| done]. by intros [= ->].
  - case_bool_decide; simpl; [| done]. by intros [= ->].
Qed.



End ParamsFacts.

(** *** At concrete inputs *)



(** ** Numbers in f-strings *)

Lemma pretty_N_char_no_space (x : N) :
  PyText.is_space (pretty_N_char x) = false.
Proof. unfold pretty_N_char. by repeat case_match. Qed.

Lemma pretty_N_go_no_space (x : N) (s : string) :
  PyText.no_space s = true -> PyText.no_space (pretty_N_go x s) = true.
Proof.
  revert s. induction (N.lt_wf_0 x) as [x _ IH]; intros s Hs.
  assert (x = 0 \/ 0 < x)%N as [-> | Hx] by lia.
  - by rewrite pretty_N_go_0.
  - rewrite pretty_N_go_step by done. apply IH.
    + by apply N.div_lt.
    + simpl. by rewrite pretty_N_char_no_space.
Qed.

Lemma pretty_N_go_length (x : N) (s : string) :
  (String.length s <= String.length (pretty_N_go x s))%nat.
Proof.
  revert s. induction (N.lt_wf_0 x) as [x _ IH]; intros s.
  assert (x = 0 \/ 0 < x)%N as [-> | Hx] by lia.
  - by rewrite pretty_N_go_0.
  - rewrite pretty_N_go_step by done.
    etrans; [| by eapply IH, N.div_lt]. simpl. lia.
Qed.

(** The decimal text of a number is a word. *)
Lemma pretty_N_is_word (x : N) : PyText.is_word (pretty x) = true.
Proof.
  unfold pretty, pretty_N. case_decide as Hx; [done |].
  apply is_word_spec. split; [| by apply pretty_N_go_no_space].
  intros Hempty. assert (0 < x)%N as Hpos by lia.
  rewrite pretty_N_go_step in Hempty by done.
  pose proof (pretty_N_go_length (x `div` 10)
                (String (pretty_N_char (x `mod` 10)) "")) as Hlen.
  rewrite Hempty in Hlen. simpl in Hlen. lia.
Qed.

Lemma pretty_nat_is_word (n : nat) : PyText.is_word (pretty n) = true.
Proof. apply pretty_N_is_word. Qed.

Lemma pretty_Z_is_word (z : Z) : PyText.is_word (pretty z) = true.
Proof.
  destruct z as [| p | p]; [done | apply pretty_N_is_word |].
  unfold pretty, pretty_Z. apply is_word_spec. split; [done |].
  change (PyText.no_space (String "-" (pretty p)) = true).
  pose proof (pretty_N_is_word (N.pos p)) as [_ Hp]%is_word_spec.
  simpl. exact Hp.
Qed.

(** Words joined by spaces, then a space and more text: the words come
    first. *)
Lemma split_join_app (ws : list string) (rest : string) :
  Forall (fun w => PyText.is_word w = true) ws ->
  PyText.split (PyText.join_with " " ws +:+ " " +:+ rest) =
  ws ++ PyText.split rest.
Proof.
  induction 1 as [| w ws Hw Hws IH]; [done |].
  destruct ws as [| w' ws].
  - by apply split_word_space.
  - change (PyText.join_with " " (w :: w' :: ws))
      with (w +:+ " " +:+ PyText.join_with " " (w' :: ws)).
    rewrite !app_assoc_str.
    change (" " +:+ PyText.join_with " " (w' :: ws) +:+ " " +:+ rest)
      with (" " +:+ (PyText.join_with " " (w' :: ws) +:+ " " +:+ rest)).
    rewrite split_word_space by done. by rewrite IH.
Qed.

Lemma join_no_space (cwd name : string) :
  PyText.no_space cwd = true -> PyText.no_space name = true ->
  PyText.no_space (PyStr.join cwd name) = true.
Proof.
  intros Hcwd Hname. unfold PyStr.join.
  destruct (String.prefix "/" name); [done |].
  destruct ((String.length cwd =? 0)%nat || PyStr.ends_with_slash cwd);
    rewrite !no_space_app, Hcwd, Hname; done.
Qed.

Lemma app_nonempty_r (s t : string) :
  t <> EmptyString -> s +:+ t <> EmptyString.
Proof.
  intros Ht Hst. apply (f_equal String.length) in Hst.
  rewrite app_length_str in Hst. destruct t; [done |]. simpl in Hst. lia.
Qed.

Lemma join_nonempty (cwd name : string) :
  name <> EmptyString -> PyStr.join cwd name <> EmptyString.
Proof.
  intros Hname. unfold PyStr.join.
  destruct (String.prefix "/" name); [done |].
  destruct ((String.length cwd =? 0)%nat || PyStr.ends_with_slash cwd).
  - by apply app_nonempty_r.
  - apply app_nonempty_r. by apply app_nonempty_r.
Qed.

(** A path made of a directory and a name, neither with whitespace. *)
Lemma join_is_word (cwd name : string) :
  PyText.no_space cwd = true -> PyText.is_word name = true ->
  PyText.is_word (PyStr.join cwd name) = true.
Proof.
  intros Hcwd [Hne Hname]%is_word_spec. apply is_word_spec. split.
  - by apply join_nonempty.
  - by apply join_no_space.
Qed.

(** ** qc.py: the alignment animation *)

Section QCFacts.
Import QC.
Context {os : Proc.OS} {plt : Plotting}.

Lemma subprocess_run_trace (argv : list string) (st st' : Proc.session)
    (r : outcome ()) :
  Proc.subprocess_run argv st = (r, st') ->
  Proc.trace st' = Proc.trace st ++ [Proc.Exec argv] /\
  Proc.outputs st' = Proc.outputs st /\
  (forall w, Proc.run_program argv (Proc.world st) = Return w ->
     r = Return () /\ Proc.world st' = w) /\
  (forall e, Proc.run_program argv (Proc.world st) = Throw e ->
     r = Throw e /\ Proc.world st' = Proc.world st).
Proof.
  destruct (Proc.run_program argv (Proc.world st)) as [w | e] eqn:Hrun.
  - rewrite (subprocess_run_returns _ _ _ Hrun). intros [= <- <-].
    split_and?; try done. by intros ? [= <-].
  - rewrite (subprocess_run_throws _ _ _ Hrun). intros [= <- <-].
    split_and?; try done. by intros ? [= <-].
Qed.

(** The arguments of [convert], when the frames and the output are
    words. *)
Lemma gif_command_split (frames : list string) (out : string)
    (delay morph : Z) :
  Forall (fun w => PyText.is_word w = true) frames ->
  PyText.is_word out = true ->
  PyText.split (gif_command frames out delay morph) =
  ["convert"; "-delay"; pretty delay] ++ frames ++
  ["-morph"; pretty morph; "-loop"; "0"; out].
Proof.
  intros Hframes Hout.
  change (gif_command frames out delay morph)
    with (PyText.join_with " " ["convert"; "-delay"; pretty delay] +:+ " " +:+
          (PyText.join_with " " frames +:+ " " +:+
           PyText.join_with " " ["-morph"; pretty morph; "-loop"; "0"; out])).
  rewrite split_join_app.
  2:{ repeat constructor. apply pretty_Z_is_word. }
  rewrite split_join_app by done.
  rewrite split_join; [done |].
  repeat constructor; try done. apply pretty_Z_is_word.
Qed.

(** With a first image to repeat, [_alignment_gif] comes down to one
    call of [convert]; the list is changed before that call. *)
Lemma alignment_gif_run (imgs : list string) (out : string) (delay morph : Z)
    (smooth_loop : bool) (st : Proc.session) :
  Forall (fun w => PyText.is_word w = true) imgs ->
  PyText.is_word out = true ->
  (smooth_loop = true -> imgs <> []) ->
  let frames := if smooth_loop then imgs ++ take 1 imgs else imgs in
  let argv := ["convert"; "-delay"; pretty delay] ++ frames ++
              ["-morph"; pretty morph; "-loop"; "0"; out] in
  alignment_gif out delay morph smooth_loop (imgs, st) =
  (let '(r, st') := Proc.subprocess_run argv st in (r, (frames, st'))).
Proof.
  intros Himgs Hout Hne frames argv. unfold alignment_gif.
  assert (Hframes : Forall (fun w => PyText.is_word w = true) frames).
  { unfold frames. destruct smooth_loop; [| done].
    apply Forall_app. split; [done |]. by apply Forall_take. }
  assert (Happ : (if smooth_loop then
                    match imgs with
                    | [] => Throw (IndexError "list index out of range")
                    | first :: _ => Return (imgs ++ [first])
                    end
                  else Return imgs) = Return frames).
  { unfold frames. destruct smooth_loop; [| done].
    destruct imgs as [| first rest]; [by destruct Hne | done]. }
  rewrite Happ. by rewrite gif_command_split.
Qed.


(** *** AlignmentQC *)

Lemma call_run {A} (r : outcome A) (st : Proc.session) : call r st = (r, st).
Proof. reflexivity. Qed.

Lemma load_all_inv (paths : list string) (st st' : Proc.session)
    (r : outcome (list Niimg)) :
  load_all paths st = (r, st') ->
  st' = st /\ forall imgs, r = Return imgs -> length imgs = length paths.
Proof.
  revert r st'. induction paths as [| p paths IH]; intros r st'.
  - intros [= <- <-]. split; [done |]. by intros ? [= <-].
  - simpl. rewrite xbind_unfold. unfold load at 1.
    destruct (check_niimg (Proc.world st) p) as [img | e].
    + rewrite xbind_unfold.
      destruct (load_all paths st) as [[imgs | e] st1] eqn:Hrest.
      * destruct (IH _ _ eq_refl) as [-> Hlen]. intros [= <- <-].
        split; [done |]. intros ? [= <-]. simpl. by rewrite (Hlen imgs).
      * destruct (IH _ _ eq_refl) as [-> _]. by intros [= <- <-].
    + by intros [= <- <-].
Qed.

Lemma find_cut_coords_state (img : Niimg) (st st' : Proc.session)
    (r : outcome cuts) :
  find_cut_coords img st = (r, st') -> st' = st.
Proof.
  unfold find_cut_coords. rewrite xbind_unfold, call_run.
  destruct (find_cut_slices img "x" 9); [| by intros [= _ <-]].
  rewrite xbind_unfold, call_run.
  destruct (find_cut_slices img "y" 9); [| by intros [= _ <-]].
  rewrite xbind_unfold, call_run.
  destruct (find_cut_slices img "z" 9); by intros [= _ <-].
Qed.

Lemma plot_mosaic_state (img : Niimg) (plot_type : string) (c : cuts)
    (title : option string) (st st' : Proc.session) (r : outcome Figure) :
  plot_mosaic img plot_type (Some c) title st = (r, st') -> st' = st.
Proof.
  unfold plot_mosaic. rewrite xbind_unfold.
  destruct (String.eqb plot_type "anat"); [by intros [= _ <-] |].
  destruct (String.eqb plot_type "epi"); by intros [= _ <-].
Qed.

Lemma plot_mosaic_unknown_type (img : Niimg) (plot_type : string)
    (c : option cuts) (title : option string) (st : Proc.session) :
  plot_type <> "anat" -> plot_type <> "epi" ->
  plot_mosaic img plot_type c title st =
  (Throw (Builtin (ValueError "plot_type must be either 'anat' or 'epi'")), st).
Proof.
  intros Hanat Hepi. unfold plot_mosaic. rewrite xbind_unfold.
  apply String.eqb_neq in Hanat, Hepi. by rewrite Hanat, Hepi.
Qed.

Lemma default_names_no_space (n : nat) :
  Forall (fun name => PyText.no_space name = true) (default_names n).
Proof.
  unfold default_names. apply Forall_fmap, Forall_forall. intros i _. simpl.
  by pose proof (pretty_nat_is_word (i + 1)) as [_ ?]%is_word_spec.
Qed.

Lemma zip_names (names : list string) (imgs : list Niimg) :
  (zip names imgs).*1 = take (length imgs) names.
Proof.
  revert imgs. induction names as [| name names IH]; intros [| img imgs];
    simpl; try done. by rewrite IH.
Qed.

Lemma fig_savefig_inv (fig : Figure) (path : string) (st st' : Proc.session)
    (r : outcome ()) :
  fig_savefig fig path st = (r, st') ->
  Proc.trace st' = Proc.trace st ++ [Proc.SaveFig path] /\
  Proc.outputs st' = Proc.outputs st.
Proof.
  unfold fig_savefig, Proc.record, update, Proc.on_world.
  rewrite xbind_unfold. simpl.
  destruct (savefig fig path (Proc.world st)); by intros [= _ <-].
Qed.

(** The loop of [AlignmentQC]: when it ends, one figure was saved for
    each pair, in order, under the name of the pair. *)
Lemma plot_frames_inv (img_type cwd : string) (c : cuts)
    (pairs : list (string * Niimg)) (acc l : list string)
    (st st' : Proc.session) :
  plot_frames img_type cwd c pairs acc st = (Return l, st') ->
  let pngs := map (fun name => PyStr.join cwd (name +:+ ".png")) (pairs.*1) in
  l = acc ++ pngs /\
  Proc.trace st' = Proc.trace st ++ map Proc.SaveFig pngs /\
  Proc.outputs st' = Proc.outputs st.
Proof.
  revert acc st. induction pairs as [| [name img] pairs IH]; intros acc st.
  - intros [= <- <-]. simpl. by rewrite !app_nil_r.
  - simpl. rewrite xbind_unfold.
    destruct (plot_mosaic img img_type (Some c) (Some name) st)
      as [[fig | e] st1] eqn:Hplot; [| done].
    apply plot_mosaic_state in Hplot as ->.
    rewrite xbind_unfold.
    destruct (fig_savefig fig (PyStr.join cwd (name +:+ ".png")) st)
      as [[[] | e] st2] eqn:Hsave; [| done].
    apply fig_savefig_inv in Hsave as [Htrace Hout].
    intros Hrest. destruct (IH _ _ Hrest) as (-> & Htrace' & Hout').
    rewrite Htrace', Htrace, Hout', Hout, <- !app_assoc. done.
Qed.

(** X15: an [img_type] other than [anat] and [epi] makes [AlignmentQC]
    raise on every input, with nothing saved, no program started and no
    result set; when the images load (there is at least one) and the cut
    positions are found, the exception is the [ValueError] of
    [_plot_mosaic], raised for the first image. *)
Theorem alignment_qc_rejects_unknown_img_type (input_imgs img_names : list string)
    (img_type cwd : string) (st : Proc.session) :
  img_type <> "anat" -> img_type <> "epi" ->
  (exists e, alignment_qc input_imgs img_names img_type cwd st = (Throw e, st)) /\
  (forall first rest c,
     load_all input_imgs st = (Return (first :: rest), st) ->
     find_cut_coords first st = (Return c, st) ->
     alignment_qc input_imgs img_names img_type cwd st =
     (Throw (Builtin (ValueError "plot_type must be either 'anat' or 'epi'")),
      st)).
Proof.
  intros Hanat Hepi.
  assert (Hloop : forall first rest c n,
            plot_frames img_type cwd c
              (zip (if (length img_names =? 0)%nat
                    then default_names (S n)
                    else img_names) (first :: rest)) [] st =
            (Throw (Builtin
                      (ValueError "plot_type must be either 'anat' or 'epi'")),
             st)).
  { intros first rest c n. unfold default_names.
    destruct img_names as [| name names]; simpl;
      rewrite xbind_unfold; by rewrite plot_mosaic_unknown_type. }
  split.
  - unfold alignment_qc. rewrite xbind_unfold.
    destruct (load_all input_imgs st) as [[imgs | e] st1] eqn:Hload;
      apply load_all_inv in Hload as [-> _]; [| by eauto].
    destruct imgs as [| first rest]; [by eauto |].
    rewrite xbind_unfold. simpl. rewrite xbind_unfold.
    destruct (find_cut_coords first st) as [[c | e] st1] eqn:Hcuts;
      apply find_cut_coords_state in Hcuts as ->.
    + rewrite xbind_unfold, Hloop. by eauto.
    + by eauto.
  - intros first rest c Hload Hcuts. unfold alignment_qc.
    rewrite xbind_unfold, Hload, xbind_unfold. simpl.
    rewrite xbind_unfold, Hcuts, xbind_unfold. by rewrite Hloop.
Qed.


Lemma app_inj_r (s1 s2 t : string) : s1 +:+ t = s2 +:+ t -> s1 = s2.
Proof.
  revert s2. induction s1 as [| c s1 IH]; intros [| c' s2] Heq; try done.
  - apply (f_equal String.length) in Heq.
    rewrite app_nil_l_str, !app_length_str in Heq. simpl in Heq. lia.
  - apply (f_equal String.length) in Heq.
    rewrite app_nil_l_str, !app_length_str in Heq. simpl in Heq. lia.
  - rewrite !app_cons in Heq. injection Heq as -> Heq. by rewrite (IH _ Heq).
Qed.

Lemma relative_app (name suffix : string) :
  String.prefix "/" name = false -> String.prefix "/" suffix = false ->
  String.prefix "/" (name +:+ suffix) = false.
Proof.
  destruct name as [| c name]; [by rewrite app_nil_l_str |].
  intros Hname _. rewrite app_cons.
  change (String.prefix "/" (String c (name +:+ suffix)))
    with (if ascii_dec "/" c then String.prefix EmptyString (name +:+ suffix)
          else false).
  change (String.prefix "/" (String c name))
    with (if ascii_dec "/" c then String.prefix EmptyString name else false)
    in Hname.
  destruct (ascii_dec "/" c); [| done]. by destruct name.
Qed.

(** X17: the frame files of [AlignmentQC] do not collide when the names
    differ: for names that are not absolute paths and differ from one
    another, and for the names [img1], [img2], ... used when none are
    given, the files [cwd/name.png] differ from one another, so no figure
    is saved over another. *)
Theorem alignment_frames_do_not_collide (cwd : string) (names : list string)
    (n : nat) :
  (Forall (fun name => String.prefix "/" name = false) names ->
   NoDup names -> NoDup (frame_files cwd names n)) /\
  NoDup (frame_files cwd (default_names n) n).
Proof.
  assert (Hframes : forall l,
            Forall (fun name => String.prefix "/" name = false) l ->
            NoDup l -> NoDup (frame_files cwd l n)).
  { intros l Hrel Hl. unfold frame_files. apply NoDup_fmap_2_strong.
    - intros a b Ha Hb Heq.
      assert (Hin : forall x, x ∈ take n l -> String.prefix "/" x = false).
      { intros x Hx. pose proof (proj1 (Forall_forall _ _) Hrel) as Hall.
        apply Hall. eapply elem_of_sublist; [exact Hx | apply sublist_take]. }
      apply join_inj in Heq; [by apply app_inj_r in Heq | |];
        by apply relative_app; [apply Hin |].
    - eapply sublist_NoDup; [exact Hl | apply sublist_take]. }
  split; [apply Hframes |]. apply Hframes.
  - unfold default_names. apply Forall_fmap, Forall_forall. by intros i _.
  - unfold default_names. apply NoDup_fmap_2; [| apply NoDup_seq].
    intros i j Heq. apply (inj (String.app "img")) in Heq.
    apply (inj pretty) in Heq. lia.
Qed.

End QCFacts.

(** *** At concrete inputs *)


Lemma alignment_qc_rejects_unknown_img_type_witness :
  let st := Host.having ["/d/t1.nii.gz"; "/d/epi.nii.gz"] in
  QC.alignment_qc (plt := Host.plt) ["/d/t1.nii.gz"; "/d/epi.nii.gz"]
    ["t1"; "epi"] "bold" "/work" st =
  (Throw (Builtin (ValueError "plot_type must be either 'anat' or 'epi'")), st).
Proof.
  intros st.
  apply (proj2 (alignment_qc_rejects_unknown_img_type (plt := Host.plt)
                  ["/d/t1.nii.gz"; "/d/epi.nii.gz"] ["t1"; "epi"] "bold"
                  "/work" st ltac:(discriminate) ltac:(discriminate))
           "/d/t1.nii.gz" ["/d/epi.nii.gz"]
           (QC.Cuts (replicate 9 (Fin 0)) (replicate 9 (Fin 0))
              (replicate 9 (Fin 0)))).
  - vm_compute. reflexivity.
  - vm_compute. reflexivity.
Defined.


Lemma alignment_frames_do_not_collide_witness :
  NoDup (QC.frame_files "/work" ["t1"; "epi"] 2) /\
  NoDup (QC.frame_files "/work" (QC.default_names 3) 3).
Proof.
  destruct (alignment_frames_do_not_collide "/work" ["t1"; "epi"] 2)
    as [Hgiven _].
  destruct (alignment_frames_do_not_collide "/work" [] 3) as [_ Hdefault].
  split; [| exact Hdefault].
  apply Hgiven.
  - by repeat constructor.
  - apply (bool_decide_unpack _). by vm_compute.
Defined.

(** ** nmt.py: NMTDataSink *)

Section DataSinkFacts.
Import DataSink.
Context {os : Proc.OS} {files : Files}.

Lemma os_makedirs_inv (path : string) (st st' : Proc.session)
    (r : outcome ()) :
  Proc.os_makedirs path st = (r, st') ->
  Proc.trace st' = Proc.trace st ++ [Proc.MakeDirs path] /\
  Proc.outputs st' = Proc.outputs st.
Proof.
  unfold Proc.os_makedirs, Proc.record, update, Proc.on_world.
  rewrite xbind_unfold. simpl.
  destruct (Proc.makedirs path (Proc.world st)); by intros [= _ <-].
Qed.

Lemma shutil_copy2_inv (src dst : string) (st st' : Proc.session)
    (r : outcome ()) :
  shutil_copy2 src dst st = (r, st') ->
  Proc.trace st' = Proc.trace st ++ [Proc.Copy src dst] /\
  Proc.outputs st' = Proc.outputs st.
Proof.
  unfold shutil_copy2, Proc.record, update, Proc.on_world.
  rewrite xbind_unfold. simpl.
  destruct (copy2 src dst (Proc.world st)); by intros [= _ <-].
Qed.

(** The loop stops at the first copy that fails: what was asked for is a
    front part of the list, all of it when the loop ends. *)
Lemma copy_loop_inv (d : string) (l : list (string * string))
    (st st' : Proc.session) (r : outcome ()) :
  foreach l (fun '(k, v) => shutil_copy2 v (PyStr.join d k)) st = (r, st') ->
  exists n,
    (n <= length l)%nat /\
    Proc.trace st' =
      Proc.trace st ++
      take n (map (fun '(k, v) => Proc.Copy v (PyStr.join d k)) l) /\
    Proc.outputs st' = Proc.outputs st /\
    (r = Return () -> n = length l).
Proof.
  revert st. induction l as [| [k v] l IH]; intros st.
  - intros [= <- <-]. exists 0%nat. simpl. by rewrite app_nil_r.
  - simpl. rewrite xbind_unfold.
    destruct (shutil_copy2 v (PyStr.join d k) st) as [[[] | e] st1] eqn:Hcopy;
      apply shutil_copy2_inv in Hcopy as [Htrace Hout].
    + intros Hrest. destruct (IH _ Hrest) as (n & Hn & Htrace' & Hout' & Hall).
      exists (S n). simpl. rewrite Htrace', Htrace, Hout', Hout, <- app_assoc.
      split_and?; try done; try lia. intros Hr. by rewrite (Hall Hr).
    + intros [= <- <-]. exists 1%nat. simpl. rewrite take_0.
      split_and?; first [done | lia].
Qed.

(** The names under which the files are stored differ from one
    another. *)
Lemma copies_destinations_differ (d : string) :
  NoDup (map (PyStr.join d)
           ["dilated_mask.nii.gz"; "dilated_brain.nii.gz"; "right_mask.nii.gz";
            "left_mask.nii.gz"; "cortical_mask.nii.gz"]).
Proof.
  apply NoDup_fmap_2_strong.
  - intros a b Ha Hb. apply join_inj.
    + set_unfold. by destruct Ha as [-> | [-> | [-> | [-> | [-> | []]]]]].
    + set_unfold. by destruct Hb as [-> | [-> | [-> | [-> | [-> | []]]]]].
  - apply (bool_decide_unpack _). by vm_compute.
Qed.


End DataSinkFacts.

(** *** At concrete inputs *)


(** ** resample.py *)

Section ResampleFacts.
Import Resample.
Context {os : Proc.OS} {hdr : Headers}.

(** The arguments of [ResampleImage], when the paths and the
    interpolation are words. *)
Lemma resample_command_split (dimension : Z)
    (input_image output_image interp : string) (d0 d1 d2 : float) :
  float_text_is_word ->
  PyText.is_word input_image = true ->
  PyText.is_word output_image = true ->
  PyText.is_word interp = true ->
  PyText.split (command dimension input_image output_image interp d0 d1 d2) =
  ["ResampleImage"; pretty dimension; input_image; output_image;
   str_float64 d0 +:+ "x" +:+ str_float64 d1 +:+ "x" +:+ str_float64 d2;
   "[1,0]"; interp].
Proof.
  intros Hfloat Hin Hout Hinterp.
  assert (Hsizes : PyText.is_word
            (str_float64 d0 +:+ "x" +:+ str_float64 d1 +:+ "x" +:+
             str_float64 d2) = true).
  { apply is_word_spec.
    pose proof (Hfloat d0) as [Hne0 Hd0]%is_word_spec.
    pose proof (Hfloat d1) as [_ Hd1]%is_word_spec.
    pose proof (Hfloat d2) as [_ Hd2]%is_word_spec. split.
    - destruct (str_float64 d0); [done |]. by rewrite app_cons.
    - by rewrite !no_space_app, Hd0, Hd1, Hd2. }
  transitivity
    (PyText.split
       (PyText.join_with " "
          ["ResampleImage"; pretty dimension; input_image; output_image;
           str_float64 d0 +:+ "x" +:+ str_float64 d1 +:+ "x" +:+
           str_float64 d2;
           "[1,0]"; interp])).
  - f_equal. unfold command. cbn [PyText.join_with].
    rewrite !app_assoc_str. reflexivity.
  - apply split_join. repeat constructor; try done. apply pretty_Z_is_word.
Qed.


End ResampleFacts.

(** *** At concrete inputs *)

(** The text of [Host.hdr] for a number is a word. *)
Lemma host_float_text_is_word : Resample.float_text_is_word (hdr := Host.hdr).
Proof.
  intros [| | q |]; try done. simpl. unfold Host.tenths.
  apply is_word_spec. split.
  - case_match; [done |].
    pose proof (pretty_Z_is_word (Z.abs (Qnum q * 10 / Z.pos (Qden q)) / 10))
      as [Hne _]%is_word_spec.
    rewrite app_nil_l_str. destruct (pretty _); [done |]. by rewrite app_cons.
  - pose proof (pretty_Z_is_word (Z.abs (Qnum q * 10 / Z.pos (Qden q)) / 10))
      as [_ Hint]%is_word_spec.
    pose proof (pretty_Z_is_word (Z.abs (Qnum q * 10 / Z.pos (Qden q)) mod 10))
      as [_ Hfrac]%is_word_spec.
    rewrite !no_space_app, Hint, Hfrac. by case_match.
Qed.

